(** * Admission validation of trust-manager Bundles

    A shallow embedding of the validating webhook of the Bundle resource
    (package [webhook]: [ValidateCreate], [ValidateUpdate], [ValidateDelete]
    and [validate]) together with the part of the API types it reads.

    The webhook is written against the revision of the API types in which a
    target is a pointer to a [KeySelector] (it reads [target.Key] and compares
    [Spec.Target.ConfigMap] with nil); the integration test uses the same
    shape.  The records below follow that shape.  Go pointers are [option]s,
    a nil dereference is a [Panicked] outcome, the logger is an explicit
    list of entries threaded through every call. *)

From Stdlib Require Import String Ascii List Bool Arith Lia Permutation.
From Stdlib Require Import Decimal DecimalNat DecimalString.
Import ListNotations.
Local Open Scope string_scope.
Local Open Scope list_scope.

Set Implicit Arguments.

(** ** API types (package v1alpha1 and the metav1 types it embeds) *)

(** metav1.LabelSelectorRequirement *)
Record LabelSelectorRequirement := {
  ReqKey : string;
  ReqOperator : string;
  ReqValues : list string
}.

(** metav1.LabelSelector; [MatchLabels] is a Go map, kept as its entries. *)
Record LabelSelector := {
  MatchLabels : list (string * string);
  MatchExpressions : list LabelSelectorRequirement
}.

(** SourceObjectKeySelector: a reference to a source object and its keys. *)
Record SourceObjectKeySelector := {
  SrcName : string;
  SrcSelector : option LabelSelector;
  SrcKey : string;
  IncludeAllKeys : bool
}.

(** BundleSource: the four optional (pointer) members of a source. *)
Record BundleSource := {
  SourceConfigMap : option SourceObjectKeySelector;
  SourceSecret : option SourceObjectKeySelector;
  InLine : option string;
  UseDefaultCAs : option bool
}.

(** KeySelector: the key written into a target object.  [Format] and
    [Password] are the optional members that TargetKey declares next to
    [Key]. *)
Record KeySelector := {
  Key : string;
  Format : option string;
  Password : option string
}.

(** The additional formats exercised by the integration test: JKS and
    PKCS12 each wrap a KeySelector. *)
Record JKS := { JKSKeySelector : KeySelector }.
Record PKCS12 := { PKCS12KeySelector : KeySelector }.

Record AdditionalFormats := {
  FormatJKS : option JKS;
  FormatPKCS12 : option PKCS12
}.

(** BundleTarget.  The webhook hands [NamespaceSelector] to the selector
    validator as it is, so it is a pointer like the selector of a source. *)
Record BundleTarget := {
  TargetConfigMap : option KeySelector;
  TargetSecret : option KeySelector;
  TargetAdditionalFormats : option AdditionalFormats;
  NamespaceSelector : option LabelSelector
}.

Record BundleSpec := {
  Sources : list BundleSource;
  Target : BundleTarget
}.

(** Bundle: of the object metadata the webhook reads [Name] only. *)
Record Bundle := {
  Name : string;
  GenerateName : string;
  Spec : BundleSpec
}.

(** runtime.Object as the webhook sees it: an interface value that either
    holds a Bundle pointer (possibly a nil pointer) or a value of another dynamic
    type, of which only the name printed by the verb %T matters.  The nil
    interface is [ObjOther "<nil>"]. *)
Inductive Object :=
| ObjBundle (ptr : option Bundle)
| ObjOther (dynType : string).

(** ** field.Path, field.Error and field.ErrorList *)

Inductive PathElem :=
| PName (name : string)
| PIndex (index : nat).

(** A path from its root to its last element. *)
Definition Path := list PathElem.

Definition NewPath (name : string) : Path := [PName name].

(** path.Child(name, moreNames...) *)
Definition Child (p : Path) (names : list string) : Path :=
  p ++ map PName names.

(** path.Index(i) *)
Definition Index (p : Path) (i : nat) : Path := p ++ [PIndex i].

Inductive ErrorType :=
| ErrorTypeNotFound
| ErrorTypeRequired
| ErrorTypeDuplicate
| ErrorTypeInvalid
| ErrorTypeNotSupported
| ErrorTypeForbidden
| ErrorTypeTooLong
| ErrorTypeTooMany
| ErrorTypeInternal
| ErrorTypeTypeInvalid.

(** The [interface{}] stored in a field error. *)
Inductive BadValue :=
| BadString (s : string)
| BadInt (n : nat)
| BadNil.

(** field.Error.  [Field] keeps the path itself; the library stores its
    rendering. *)
Record FieldError := {
  Type_ : ErrorType;
  Field : Path;
  Value : BadValue;
  Detail : string
}.

Definition ErrorList := list FieldError.

Definition Invalid (p : Path) (v : BadValue) (detail : string) : FieldError :=
  {| Type_ := ErrorTypeInvalid; Field := p; Value := v; Detail := detail |}.

(** field.Forbidden stores the empty string as its value. *)
Definition Forbidden (p : Path) (detail : string) : FieldError :=
  {| Type_ := ErrorTypeForbidden; Field := p; Value := BadString "";
     Detail := detail |}.

(** ** Results of a webhook call *)

(** A Go [error]: nil, the error of [fmt.Errorf], or the aggregate built by
    [ErrorList.ToAggregate]. *)
Inductive error :=
| ErrNil
| ErrFmt (msg : string)
| ErrAggregate (errs : ErrorList).

(** admission.Warnings; the nil slice is [[]]. *)
Definition Warnings := list string.

(** What a call does: it returns its pair of results or it panics. *)
Inductive Outcome :=
| Returned (warnings : Warnings) (err : error)
| Panicked (reason : string).

(** Where a guard of ValidateUpdate leaves the call: it goes on to the next
    statement or it is over. *)
Inductive Step :=
| Continue
| Stop (out : Outcome).

Definition nilDereference : string :=
  "runtime error: invalid memory address or nil pointer dereference".

(** One call of a logr logger: verbosity, message, key/value pairs. *)
Record LogEntry := {
  Verbosity : nat;
  Message : string;
  KeysAndValues : list (string * string)
}.

(** The logger reached through the context: the entries written so far,
    oldest first. *)
Definition Log := list LogEntry.

(** ** Helpers of the Go runtime and of fmt *)

(** fmt.Sprintf("%d", i) for a slice index. *)
Definition sprint_d (i : nat) : string :=
  NilEmpty.string_of_uint (Nat.to_uint i).

(** fmt.Sprintf("[%d]", i) *)
Definition sprintf_index (i : nat) : string := "[" ++ sprint_d i ++ "]".

(** [for i, x := range xs { s = body s i x }], counting from [i]. *)
Fixpoint range_from {A St : Type} (body : St -> nat -> A -> St)
         (i : nat) (xs : list A) (s : St) : St :=
  match xs with
  | [] => s
  | x :: rest => range_from body (S i) rest (body s i x)
  end.

Definition range {A St : Type} (body : St -> nat -> A -> St)
           (xs : list A) (s : St) : St :=
  range_from body 0 xs s.

Definition expectedBundle (dynType : string) : string :=
  "expected a Bundle, but got a " ++ dynType.

Definition sameSourceAsTarget : string :=
  "cannot define the same source as target".

Definition configMapRemoval : string :=
  "target configMap removal is not allowed".

Definition secretRemoval : string :=
  "target secret removal is not allowed".

Section Webhook.

(** The two library functions the webhook calls: the label selector
    validator of apimachinery and the rendering [Error()] of a field
    error, which [ToAggregate] uses to drop repeated messages.  The
    validator ranges over the Go map of labels, so the order of the faults
    of one selector can differ from one run to the next; within a run the
    webhook calls it at pairwise different paths, and one function of the
    selector and the path stands for the library in that run. *)
Variable ValidateLabelSelector : option LabelSelector -> Path -> ErrorList.
Variable ErrorString : FieldError -> string.

Definition hasMsg (seen : list string) (msg : string) : bool :=
  existsb (String.eqb msg) seen.

(** The loop of ToAggregate: keep the first error of every message. *)
Fixpoint uniqueMsgs (seen : list string) (list_ : ErrorList) : ErrorList :=
  match list_ with
  | [] => []
  | err :: rest =>
      let msg := ErrorString err in
      if hasMsg seen msg then uniqueMsgs seen rest
      else err :: uniqueMsgs (msg :: seen) rest
  end.

(** ErrorList.ToAggregate: nil for the empty list. *)
Definition ToAggregate (list_ : ErrorList) : error :=
  match list_ with
  | [] => ErrNil
  | _ => ErrAggregate (uniqueMsgs [] list_)
  end.

(** The body of the first loop of [validate]. *)
Definition selectorsBody (path : Path) (el : ErrorList) (i : nat)
           (source : BundleSource) : ErrorList :=
  let path := Index (Child path ["sources"]) i in
  let el :=
    match SourceConfigMap source with
    | Some configMap =>
        let path := Child path ["configMap"] in
        let errs :=
          ValidateLabelSelector (SrcSelector configMap)
                                (Child path ["selector"]) in
        el ++ errs
    | None => el
    end in
  match SourceSecret source with
  | Some secret =>
      let path := Child path ["secret"] in
      let errs :=
        ValidateLabelSelector (SrcSelector secret)
                              (Child path ["selector"]) in
      el ++ errs
  | None => el
  end.

(** The body of the loop over sources under a configMap target. *)
Definition configMapBody (name : string) (target : KeySelector)
           (path : Path) (el : ErrorList) (i : nat)
           (source : BundleSource) : ErrorList :=
  match SourceConfigMap source with
  | Some cm =>
      if (String.eqb (SrcName cm) name && String.eqb (SrcKey cm) (Key target))%bool
      then el ++ [Forbidden
                    (Child path [sprintf_index i; "configMap"; SrcName cm; SrcKey cm])
                    sameSourceAsTarget]
      else el
  | None => el
  end.

(** The body of the loop over sources under a secret target. *)
Definition secretBody (name : string) (target : KeySelector)
           (path : Path) (el : ErrorList) (i : nat)
           (source : BundleSource) : ErrorList :=
  match SourceSecret source with
  | Some secret =>
      if (String.eqb (SrcName secret) name && String.eqb (SrcKey secret) (Key target))%bool
      then el ++ [Forbidden
                    (Child path [sprintf_index i; "secret"; SrcName secret; SrcKey secret])
                    sameSourceAsTarget]
      else el
  | None => el
  end.

(** The error list [validate] has accumulated when it returns. *)
Definition validateErrors (bundle : Bundle) : ErrorList :=
  let el : ErrorList := [] in
  let path := NewPath "spec" in
  let el := range (selectorsBody path) (Sources (Spec bundle)) el in
  let el :=
    match TargetConfigMap (Target (Spec bundle)) with
    | Some target =>
        let path := Child path ["sources"] in
        range (configMapBody (Name bundle) target path)
              (Sources (Spec bundle)) el
    | None => el
    end in
  let el :=
    match TargetSecret (Target (Spec bundle)) with
    | Some target =>
        let path := Child path ["sources"] in
        range (secretBody (Name bundle) target path)
              (Sources (Spec bundle)) el
    | None => el
    end in
  let errs :=
    ValidateLabelSelector (NamespaceSelector (Target (Spec bundle)))
                          (Child path ["target"; "namespaceSelector"]) in
  el ++ errs.

(** validator.validate *)
Definition validate (log : Log) (obj : Object) : Log * Outcome :=
  match obj with
  | ObjOther dynType => (log, Returned [] (ErrFmt (expectedBundle dynType)))
  | ObjBundle None => (log, Panicked nilDereference)
  | ObjBundle (Some bundle) =>
      let log :=
        log ++ [{| Verbosity := 2;
                   Message := "received validation request";
                   KeysAndValues := [("name", Name bundle)] |}] in
      let warnings : Warnings := [] in
      (log, Returned warnings (ToAggregate (validateErrors bundle)))
  end.

(** validator.ValidateCreate *)
Definition ValidateCreate (log : Log) (obj : Object) : Log * Outcome :=
  validate log obj.

(** The type assertion of a Bundle pointer in ValidateUpdate; on
    failure the message prints the type of the nil pointer variable. *)
Definition assertBundle (obj : Object) : option Bundle + error :=
  match obj with
  | ObjBundle ptr => inl ptr
  | ObjOther _ => inr (ErrFmt (expectedBundle "*v1alpha1.Bundle"))
  end.

Definition isNil {A : Type} (p : option A) : bool :=
  match p with Some _ => false | None => true end.

(** validator.ValidateUpdate.  The conditions are evaluated left to
    right, so the new bundle is dereferenced only when the old target is
    set. *)
Definition ValidateUpdate (log : Log) (oldObj newObj : Object)
  : Log * Outcome :=
  match assertBundle oldObj with
  | inr e => (log, Returned [] e)
  | inl oldBundle =>
  match assertBundle newObj with
  | inr e => (log, Returned [] e)
  | inl newBundle =>
      let path := NewPath "spec" in
      match oldBundle with
      | None => (log, Panicked nilDereference)
      | Some old =>
          let configMapStep :=
            if isNil (TargetConfigMap (Target (Spec old))) then Continue
            else match newBundle with
                 | None => Stop (Panicked nilDereference)
                 | Some new =>
                     if isNil (TargetConfigMap (Target (Spec new)))
                     then Stop (Returned []
                            (ToAggregate
                               [Invalid (Child path ["target"; "configmap"])
                                        (BadString "") configMapRemoval]))
                     else Continue
                 end in
          match configMapStep with
          | Stop out => (log, out)
          | Continue =>
              let secretStep :=
                if isNil (TargetSecret (Target (Spec old))) then Continue
                else match newBundle with
                     | None => Stop (Panicked nilDereference)
                     | Some new =>
                         if isNil (TargetSecret (Target (Spec new)))
                         then Stop (Returned []
                                (ToAggregate
                                   [Invalid (Child path ["target"; "secret"])
                                            (BadString "") secretRemoval]))
                         else Continue
                     end in
              match secretStep with
              | Stop out => (log, out)
              | Continue => validate log newObj
              end
          end
      end
  end
  end.

(** validator.ValidateDelete: always allow deletes. *)
Definition ValidateDelete (log : Log) (obj : Object) : Log * Outcome :=
  (log, Returned [] ErrNil).

End Webhook.

(** ** Rules declared with the API types *)

(** The integration test creates Bundles through the API server, which
    applies the validation rules attached to the API types before the
    webhook is called.  The revision of the types at hand carries none of
    these rules, so the three the test exercises are modelled here. *)

Definition isSet {A : Type} (p : option A) : bool := negb (isNil p).

(** [useDefaultCAs] counts only when it points to [true]. *)
Definition defaultCAsRequested (source : BundleSource) : bool :=
  match UseDefaultCAs source with
  | Some true => true
  | _ => false
  end.

Definition populated (source : BundleSource) : list bool :=
  [isSet (SourceConfigMap source); isSet (SourceSecret source);
   isSet (InLine source); defaultCAsRequested source].

Definition countPopulated (source : BundleSource) : nat :=
  length (filter (fun b : bool => b) (populated source)).

Definition exactlyOneSource : string := "must define exactly one source".

(** Modelled from the spec: the rule on a source item, which is attached to
    BundleSource in a revision of the types that is not at hand (Source
    Validator, step 1): count the populated members among configMap,
    secret, inLine and useDefaultCAs == true, and report
    "must define exactly one source" at sources[i] unless the count is 1. *)
Definition validateSourceItem (path : Path) (i : nat) (source : BundleSource)
  : ErrorList :=
  if Nat.eqb (countPopulated source) 1 then []
  else [Invalid (Index (Child path ["sources"]) i) (BadString "object")
                exactlyOneSource].

Definition atLeastOneTarget : string :=
  "must define at least one target configMap/secret".

Definition additionalKeysDiffer : string :=
  "additional format keys must be different from configMap/secret keys".

Definition additionalKeysUnique : string :=
  "additional format keys must be unique".

(** Modelled from the spec: the target rule on the presence of a target,
    attached to BundleTarget in a revision of the types that is not at hand
    (Target Validator, step 1). *)
Definition validateTargetPresence (path : Path) (target : BundleTarget)
  : ErrorList :=
  if (isNil (TargetConfigMap target) && isNil (TargetSecret target))%bool
  then [Invalid (Child path ["target"]) (BadString "object") atLeastOneTarget]
  else [].

(** Target Validator, step 3: the primary keys in use. *)
Definition primaryKeys (target : BundleTarget) : list string :=
  match TargetConfigMap target with Some cm => [Key cm] | None => [] end
  ++ match TargetSecret target with Some s => [Key s] | None => [] end.

Definition jksKey (target : BundleTarget) : option string :=
  match TargetAdditionalFormats target with
  | Some formats =>
      match FormatJKS formats with
      | Some jks => Some (Key (JKSKeySelector jks))
      | None => None
      end
  | None => None
  end.

Definition pkcs12Key (target : BundleTarget) : option string :=
  match TargetAdditionalFormats target with
  | Some formats =>
      match FormatPKCS12 formats with
      | Some p12 => Some (Key (PKCS12KeySelector p12))
      | None => None
      end
  | None => None
  end.

(** Target Validator, step 4: the additional format keys in use. *)
Definition additionalKeys (target : BundleTarget) : list string :=
  match jksKey target with Some k => [k] | None => [] end
  ++ match pkcs12Key target with Some k => [k] | None => [] end.

Definition memKey (k : string) (keys : list string) : bool :=
  existsb (String.eqb k) keys.

(** Modelled from the spec: the two target rules on additional format keys,
    attached to BundleTarget in a revision of the types that is not at hand
    (Target Validator, steps 5 and 6). *)
Definition validateAdditionalKeys (path : Path) (target : BundleTarget)
  : ErrorList :=
  (if existsb (fun k => memKey k (primaryKeys target)) (additionalKeys target)
   then [Invalid (Child path ["target"]) (BadString "object")
                 additionalKeysDiffer]
   else [])
  ++
  (match jksKey target, pkcs12Key target with
   | Some j, Some p =>
       if String.eqb j p
       then [Invalid (Child path ["target"]) (BadString "object")
                     additionalKeysUnique]
       else []
   | _, _ => []
   end).

(** ** The tables of the integration test *)

Definition noSource : BundleSource :=
  {| SourceConfigMap := None; SourceSecret := None; InLine := None;
     UseDefaultCAs := None |}.

Definition caSelector : SourceObjectKeySelector :=
  {| SrcName := "ca"; SrcSelector := None; SrcKey := "ca.crt";
     IncludeAllKeys := false |}.

(** The entries of "should require exactly one source": source, wantErr. *)
Definition sourceItemTable : list (BundleSource * bool) :=
  [ (noSource, true);
    ({| SourceConfigMap := Some caSelector; SourceSecret := None;
        InLine := None; UseDefaultCAs := None |}, false);
    ({| SourceConfigMap := None; SourceSecret := Some caSelector;
        InLine := None; UseDefaultCAs := None |}, false);
    ({| SourceConfigMap := None; SourceSecret := None;
        InLine := Some ""; UseDefaultCAs := None |}, false);
    ({| SourceConfigMap := None; SourceSecret := None;
        InLine := None; UseDefaultCAs := Some true |}, false);
    ({| SourceConfigMap := None; SourceSecret := None;
        InLine := None; UseDefaultCAs := Some false |}, true);
    ({| SourceConfigMap := None; SourceSecret := None;
        InLine := Some ""; UseDefaultCAs := Some true |}, true) ].

Definition keyOnly (k : string) : KeySelector :=
  {| Key := k; Format := None; Password := None |}.

(** The entries of "should require at least one target configMap/secret". *)
Definition targetPresenceTable : list (BundleTarget * bool) :=
  [ ({| TargetConfigMap := None; TargetSecret := None;
        TargetAdditionalFormats := None;
        NamespaceSelector :=
          Some {| MatchLabels := []; MatchExpressions := [] |} |}, true);
    ({| TargetConfigMap := Some (keyOnly "ca-bundle.crt");
        TargetSecret := None; TargetAdditionalFormats := None;
        NamespaceSelector := None |}, false);
    ({| TargetConfigMap := None;
        TargetSecret := Some (keyOnly "ca-bundle.crt");
        TargetAdditionalFormats := None; NamespaceSelector := None |}, false);
    ({| TargetConfigMap := Some (keyOnly "ca-bundle.crt");
        TargetSecret := Some (keyOnly "ca-bundle.crt");
        TargetAdditionalFormats := None; NamespaceSelector := None |}, false) ].

(** TargetKeySpec of the test; an empty key leaves the member unset. *)
Record TargetKeySpec := {
  ConfigMapKey : string;
  SecretKey : string;
  JKSKey : string;
  PKCS12Key : string
}.

Definition unlessEmpty {A : Type} (k : string) (v : string -> A) : option A :=
  if String.eqb k "" then None else Some (v k).

(** The target the test builds from a TargetKeySpec. *)
Definition targetOfKeySpec (keySpec : TargetKeySpec) : BundleTarget :=
  {| TargetConfigMap := unlessEmpty (ConfigMapKey keySpec) keyOnly;
     TargetSecret := unlessEmpty (SecretKey keySpec) keyOnly;
     TargetAdditionalFormats :=
       Some {| FormatJKS :=
                 unlessEmpty (JKSKey keySpec)
                   (fun k => {| JKSKeySelector := keyOnly k |});
               FormatPKCS12 :=
                 unlessEmpty (PKCS12Key keySpec)
                   (fun k => {| PKCS12KeySelector := keyOnly k |}) |};
     NamespaceSelector := None |}.

Definition keySpec (c s j p : string) : TargetKeySpec :=
  {| ConfigMapKey := c; SecretKey := s; JKSKey := j; PKCS12Key := p |}.

(** The entries of "should require additional format keys different from
    target keys". *)
Definition additionalKeysTable : list (TargetKeySpec * bool) :=
  [ (keySpec "ca.crt" "" "" "", false);
    (keySpec "" "ca.crt" "" "", false);
    (keySpec "ca.crt" "ca.crt" "" "", false);
    (keySpec "c" "s" "" "", false);
    (keySpec "c" "s" "j" "", false);
    (keySpec "c" "s" "" "p", false);
    (keySpec "c" "s" "j" "p", false);
    (keySpec "c" "s" "c" "", true);
    (keySpec "c" "s" "" "c", true);
    (keySpec "c" "s" "c" "p", true);
    (keySpec "c" "s" "j" "c", true);
    (keySpec "c" "s" "s" "", true);
    (keySpec "c" "s" "" "s", true);
    (keySpec "c" "s" "s" "p", true);
    (keySpec "c" "s" "j" "s", true) ].

(** The target of the test's BeforeEach with the given additional formats. *)
Definition defaultTargetWith (formats : AdditionalFormats) : BundleTarget :=
  {| TargetConfigMap := Some (keyOnly "ca-bundle.crt");
     TargetSecret := None;
     TargetAdditionalFormats := Some formats;
     NamespaceSelector := None |}.

Definition jksOf (k : string) : option JKS :=
  Some {| JKSKeySelector := keyOnly k |}.

Definition pkcs12Of (k : string) : option PKCS12 :=
  Some {| PKCS12KeySelector := keyOnly k |}.

(** The entries of "should require unique additional format keys". *)
Definition uniqueKeysTable : list (AdditionalFormats * bool) :=
  [ ({| FormatJKS := None; FormatPKCS12 := None |}, false);
    ({| FormatJKS := jksOf "trust.jks"; FormatPKCS12 := None |}, false);
    ({| FormatJKS := None; FormatPKCS12 := pkcs12Of "trust.p12" |}, false);
    ({| FormatJKS := jksOf "trust.jks";
        FormatPKCS12 := pkcs12Of "trust.p12" |}, false);
    ({| FormatJKS := jksOf "cacerts";
        FormatPKCS12 := pkcs12Of "cacerts" |}, true) ].

(** Whether a list of faults holds one with the given detail. *)
Definition hasDetail (detail : string) (el : ErrorList) : bool :=
  existsb (fun e => String.eqb (Detail e) detail) el.

(** ** Instances of the library functions for the examples *)

Definition pathElemString (first : bool) (e : PathElem) : string :=
  match e with
  | PName name => if first then name else "." ++ name
  | PIndex i => sprintf_index i
  end.

Fixpoint pathString (first : bool) (p : Path) : string :=
  match p with
  | [] => ""
  | e :: rest => pathElemString first e ++ pathString false rest
  end.

(** A rendering of a field error: its path and its detail. *)
Definition fieldErrorString (e : FieldError) : string :=
  pathString true (Field e) ++ ": " ++ Detail e.

(** ** Values named in the statements *)

(** What an appending loop adds: the faults [g] finds at each index. *)
Fixpoint found_from {A B : Type} (g : nat -> A -> list B) (i : nat)
         (xs : list A) : list B :=
  match xs with
  | [] => []
  | x :: rest => g i x ++ found_from g (S i) rest
  end.

(** The entry [validate] writes for a bundle. *)
Definition validationEntry (bundle : Bundle) : LogEntry :=
  {| Verbosity := 2; Message := "received validation request";
     KeysAndValues := [("name", Name bundle)] |}.

(** The faults of a removed target. *)
Definition configMapRemovalFault : FieldError :=
  Invalid [PName "spec"; PName "target"; PName "configmap"]
          (BadString "") configMapRemoval.

Definition secretRemovalFault : FieldError :=
  Invalid [PName "spec"; PName "target"; PName "secret"]
          (BadString "") secretRemoval.

(** The faults a returned aggregate carries. *)
Definition faultsOf (out : Outcome) : ErrorList :=
  match out with
  | Returned _ (ErrAggregate errs) => errs
  | _ => []
  end.

(** What the first loop of [validate] appends for one source. *)
Definition selectorsFound
           (ValidateLabelSelector : option LabelSelector -> Path -> ErrorList)
           (path : Path) (i : nat) (source : BundleSource) : ErrorList :=
  match SourceConfigMap source with
  | Some configMap =>
      ValidateLabelSelector (SrcSelector configMap)
        (Child (Child (Index (Child path ["sources"]) i) ["configMap"])
               ["selector"])
  | None => []
  end
  ++
  match SourceSecret source with
  | Some secret =>
      ValidateLabelSelector (SrcSelector secret)
        (Child (Child (Index (Child path ["sources"]) i) ["secret"])
               ["selector"])
  | None => []
  end.

(** The fault of a source that reads what the target of its kind writes. *)
Definition sameSourceFault (i : nat) (kind : string)
           (sel : SourceObjectKeySelector) : FieldError :=
  Forbidden [PName "spec"; PName "sources"; PName (sprintf_index i);
             PName kind; PName (SrcName sel); PName (SrcKey sel)]
            sameSourceAsTarget.

(** The path under which the faults of source [i] and one kind lie. *)
Definition sourceKindPath (i : nat) (kind : string) : Path :=
  [PName "spec"; PName "sources"; PName (sprintf_index i); PName kind].

Definition isPrefix (p q : Path) : Prop := exists rest, q = p ++ rest.

(** The condition of the two loops over sources. *)
Definition sameAsTarget (name : string) (target : KeySelector)
           (sel : SourceObjectKeySelector) : bool :=
  (String.eqb (SrcName sel) name && String.eqb (SrcKey sel) (Key target))%bool.

(** What the loop under a configMap target appends for one source. *)
Definition configMapFound (name : string) (target : KeySelector)
           (i : nat) (source : BundleSource) : ErrorList :=
  match SourceConfigMap source with
  | Some cm =>
      if sameAsTarget name target cm then [sameSourceFault i "configMap" cm]
      else []
  | None => []
  end.

(** What the loop under a secret target appends for one source. *)
Definition secretFound (name : string) (target : KeySelector)
           (i : nat) (source : BundleSource) : ErrorList :=
  match SourceSecret source with
  | Some secret =>
      if sameAsTarget name target secret then [sameSourceFault i "secret" secret]
      else []
  | None => []
  end.

(** A selector validator that never reports the given detail. *)
Definition neverReports
           (ValidateLabelSelector : option LabelSelector -> Path -> ErrorList)
           (detail : string) : Prop :=
  forall sel p e, In e (ValidateLabelSelector sel p) -> Detail e <> detail.

(** The four ways a source populates exactly one member. *)
Definition exactlyOne (source : BundleSource) : Prop :=
  (SourceConfigMap source <> None /\ SourceSecret source = None /\
   InLine source = None /\ UseDefaultCAs source <> Some true) \/
  (SourceConfigMap source = None /\ SourceSecret source <> None /\
   InLine source = None /\ UseDefaultCAs source <> Some true) \/
  (SourceConfigMap source = None /\ SourceSecret source = None /\
   InLine source <> None /\ UseDefaultCAs source <> Some true) \/
  (SourceConfigMap source = None /\ SourceSecret source = None /\
   InLine source = None /\ UseDefaultCAs source = Some true).

(** The faults of the modelled rules. *)
Definition exactlyOneFault (path : Path) (i : nat) : FieldError :=
  Invalid (path ++ [PName "sources"; PIndex i]) (BadString "object")
          exactlyOneSource.

Definition targetFault (path : Path) (detail : string) : FieldError :=
  Invalid (path ++ [PName "target"]) (BadString "object") detail.

(** A primary key of the target: the key of its configMap or its secret. *)
Definition isPrimaryKey (target : BundleTarget) (k : string) : Prop :=
  (exists cm, TargetConfigMap target = Some cm /\ Key cm = k) \/
  (exists s, TargetSecret target = Some s /\ Key s = k).

(** An additional format key of the target: its JKS or its PKCS12 key. *)
Definition isAdditionalKey (target : BundleTarget) (k : string) : Prop :=
  jksKey target = Some k \/ pkcs12Key target = Some k.

(** An entry of a test table agrees with the faults of the rules: the
    expected detail is there when an error is wanted, and nothing is
    reported when the creation is to succeed. *)
Definition agrees (detail : string) (faults : ErrorList) (wantErr : bool)
  : bool :=
  if wantErr then hasDetail detail faults
  else match faults with [] => true | _ => false end.

Definition targetRules (target : BundleTarget) : ErrorList :=
  validateTargetPresence (NewPath "spec") target
  ++ validateAdditionalKeys (NewPath "spec") target.

(** ** Bundles for the examples *)

Definition bundleOf (name : string) (sources : list BundleSource)
           (cm secret : option KeySelector) : Bundle :=
  {| Name := name; GenerateName := "";
     Spec := {| Sources := sources;
                Target := {| TargetConfigMap := cm; TargetSecret := secret;
                             TargetAdditionalFormats := None;
                             NamespaceSelector := None |} |} |}.

Definition defaultCAs : BundleSource :=
  {| SourceConfigMap := None; SourceSecret := None; InLine := None;
     UseDefaultCAs := Some true |}.

Definition bothTargets : Bundle :=
  bundleOf "trust" [defaultCAs] (Some (keyOnly "ca-bundle.crt"))
           (Some (keyOnly "ca-bundle.crt")).

Definition noTargets : Bundle := bundleOf "trust" [defaultCAs] None None.

Definition onlyConfigMap : Bundle :=
  bundleOf "trust" [defaultCAs] (Some (keyOnly "ca-bundle.crt")) None.

Definition onlySecret : Bundle :=
  bundleOf "trust" [defaultCAs] None (Some (keyOnly "ca-bundle.crt")).

Definition selfSelector (key : string) : SourceObjectKeySelector :=
  {| SrcName := "trust"; SrcSelector := None; SrcKey := key;
     IncludeAllKeys := false |}.

(** A source that reads the configMap and the secret named like the
    bundle. *)
Definition selfSource (cmKey secretKey : string) : BundleSource :=
  {| SourceConfigMap := Some (selfSelector cmKey);
     SourceSecret := Some (selfSelector secretKey);
     InLine := None; UseDefaultCAs := None |}.

Definition selfBundle (cmKey secretKey : string) : Bundle :=
  bundleOf "trust" [defaultCAs; selfSource cmKey secretKey]
           (Some (keyOnly "ca-bundle.crt")) (Some (keyOnly "tls.crt")).

Definition validOperator (op : string) : bool :=
  (String.eqb op "In" || String.eqb op "NotIn" || String.eqb op "Exists"
   || String.eqb op "DoesNotExist")%bool.

Definition invalidOperator : string := "not a valid selector operator".

(** A selector validator that checks the operator of every requirement,
    one of the checks of the library; a nil selector has no fault. *)
Definition checkOperators (sel : option LabelSelector) (p : Path) : ErrorList :=
  match sel with
  | None => []
  | Some ps =>
      found_from
        (fun i expr =>
           if validOperator (ReqOperator expr) then []
           else [Invalid (Child (Index (Child p ["matchExpressions"]) i)
                                ["operator"])
                         (BadString (ReqOperator expr)) invalidOperator])
        0 (MatchExpressions ps)
  end.

(** A selector with a requirement whose operator does not exist. *)
Definition badSelector : LabelSelector :=
  {| MatchLabels := [];
     MatchExpressions :=
       [{| ReqKey := "env"; ReqOperator := "Equals"; ReqValues := ["prod"] |}] |}.

Definition withNamespaceSelector (sel : option LabelSelector) (b : Bundle)
  : Bundle :=
  {| Name := Name b; GenerateName := GenerateName b;
     Spec := {| Sources := Sources (Spec b);
                Target :=
                  {| TargetConfigMap := TargetConfigMap (Target (Spec b));
                     TargetSecret := TargetSecret (Target (Spec b));
                     TargetAdditionalFormats :=
                       TargetAdditionalFormats (Target (Spec b));
                     NamespaceSelector := sel |} |} |}.

(** ** What the webhook reads and reports *)

(** The paths the webhook hands to the selector validator. *)
Definition sourceSelectorPath (i : nat) (kind : string) : Path :=
  [PName "spec"; PName "sources"; PIndex i; PName kind; PName "selector"].

Definition namespaceSelectorPath : Path :=
  [PName "spec"; PName "target"; PName "namespaceSelector"].

(** Where a fault of [validate] comes from: the selector of the configMap
    or of the secret of a source, a source that reads what the target
    configMap or the target secret writes, or the namespace selector. *)
Definition faultOrigin
           (ValidateLabelSelector : option LabelSelector -> Path -> ErrorList)
           (bundle : Bundle) (e : FieldError) : Prop :=
  (exists i source cm,
      nth_error (Sources (Spec bundle)) i = Some source /\
      SourceConfigMap source = Some cm /\
      In e (ValidateLabelSelector (SrcSelector cm)
                                  (sourceSelectorPath i "configMap")))
  \/
  (exists i source secret,
      nth_error (Sources (Spec bundle)) i = Some source /\
      SourceSecret source = Some secret /\
      In e (ValidateLabelSelector (SrcSelector secret)
                                  (sourceSelectorPath i "secret")))
  \/
  (exists i source cm target,
      nth_error (Sources (Spec bundle)) i = Some source /\
      SourceConfigMap source = Some cm /\
      TargetConfigMap (Target (Spec bundle)) = Some target /\
      SrcName cm = Name bundle /\ SrcKey cm = Key target /\
      e = sameSourceFault i "configMap" cm)
  \/
  (exists i source secret target,
      nth_error (Sources (Spec bundle)) i = Some source /\
      SourceSecret source = Some secret /\
      TargetSecret (Target (Spec bundle)) = Some target /\
      SrcName secret = Name bundle /\ SrcKey secret = Key target /\
      e = sameSourceFault i "secret" secret)
  \/
  In e (ValidateLabelSelector (NamespaceSelector (Target (Spec bundle)))
                              namespaceSelectorPath).

(** The members of a bundle the webhook reads: of a source selector its
    name, selector and key; of a target the keys of its configMap and
    secret and the namespace selector; of the metadata the name. *)
Definition selectorView (sel : SourceObjectKeySelector)
  : string * option LabelSelector * string :=
  (SrcName sel, SrcSelector sel, SrcKey sel).

Definition sourceView (source : BundleSource) :=
  (option_map selectorView (SourceConfigMap source),
   option_map selectorView (SourceSecret source)).

Definition targetView (target : BundleTarget) :=
  (option_map Key (TargetConfigMap target),
   option_map Key (TargetSecret target),
   NamespaceSelector target).

Definition bundleView (bundle : Bundle) :=
  (Name bundle, map sourceView (Sources (Spec bundle)),
   targetView (Target (Spec bundle))).

(** The warnings a call returns; a call that panics returns none. *)
Definition warningsOf (out : Outcome) : Warnings :=
  match out with
  | Returned warnings _ => warnings
  | Panicked _ => []
  end.

(** The message of the failed type assertions of ValidateUpdate. *)
Definition expectedBundlePointer : string :=
  "expected a Bundle, but got a *v1alpha1.Bundle".

(** A bundle the integration test does not build: two sources populate
    several members or none, the target has additional formats, and a
    source reads a configMap named like the bundle under another key. *)
Definition looseBundle : Bundle :=
  {| Name := "trust"; GenerateName := "validation-";
     Spec :=
       {| Sources :=
            [ {| SourceConfigMap := Some (selfSelector "other.crt");
                 SourceSecret := None; InLine := Some "pem";
                 UseDefaultCAs := Some true |};
              noSource ];
          Target :=
            {| TargetConfigMap :=
                 Some {| Key := "ca-bundle.crt"; Format := Some "JKS";
                         Password := Some "changeit" |};
               TargetSecret := None;
               TargetAdditionalFormats :=
                 Some {| FormatJKS := jksOf "ca-bundle.crt";
                         FormatPKCS12 := None |};
               NamespaceSelector := None |} |} |}.

(** The same bundle to the webhook, with one well-formed source. *)
Definition tidyBundle : Bundle :=
  bundleOf "trust"
    [ {| SourceConfigMap :=
           Some {| SrcName := "trust"; SrcSelector := None;
                   SrcKey := "other.crt"; IncludeAllKeys := true |};
         SourceSecret := None; InLine := None; UseDefaultCAs := None |};
      defaultCAs ]
    (Some (keyOnly "ca-bundle.crt")) None.

(** A bundle whose first source carries the selector with the operator
    the instance rejects. *)
Definition badSourceBundle : Bundle :=
  bundleOf "trust"
    [ {| SourceConfigMap :=
           Some {| SrcName := ""; SrcSelector := Some badSelector;
                   SrcKey := "ca.crt"; IncludeAllKeys := false |};
         SourceSecret := None; InLine := None; UseDefaultCAs := None |} ]
    (Some (keyOnly "ca-bundle.crt")) None.

(** ** Runs of the library *)

(** The order in which one run ranges over the entries of a Go map. *)
Definition MapOrder := list (string * string) -> list (string * string).

Definition asStored : MapOrder := fun entries => entries.

Definition reversed : MapOrder := fun entries => List.rev entries.

Definition invalidLabelValue : string :=
  "a valid label must be an empty string or consist of alphanumeric characters".

Definition hasSpace (s : string) : bool :=
  existsb (Ascii.eqb " "%char) (list_ascii_of_string s).

(** One of the checks of the library on a label: a value with a space is
    not valid, and is reported at the path of the labels. *)
Definition labelValueFaults (p : Path) (label : string * string) : ErrorList :=
  if hasSpace (snd label) then [Invalid p (BadString (snd label)) invalidLabelValue]
  else [].

(** A selector validator in the manner of the library: it ranges over the
    labels in the order of the run, then over the requirements. *)
Definition validateLabels (order : MapOrder) (sel : option LabelSelector)
           (p : Path) : ErrorList :=
  match sel with
  | None => []
  | Some ps =>
      flat_map (labelValueFaults (Child p ["matchLabels"]))
               (order (MatchLabels ps))
      ++ checkOperators sel p
  end.

(** A bundle whose namespace selector has two labels with a space in their
    value. *)
Definition labelledBundle : Bundle :=
  withNamespaceSelector
    (Some {| MatchLabels := [("env", "not valid"); ("tier", "also bad")];
             MatchExpressions := [] |})
    onlyConfigMap.

Definition quote : string := String (ascii_of_nat 34) EmptyString.

Definition errorTypeString (t : ErrorType) : string :=
  match t with
  | ErrorTypeNotFound => "Not found"
  | ErrorTypeRequired => "Required value"
  | ErrorTypeDuplicate => "Duplicate value"
  | ErrorTypeInvalid => "Invalid value"
  | ErrorTypeNotSupported => "Unsupported value"
  | ErrorTypeForbidden => "Forbidden"
  | ErrorTypeTooLong => "Too long"
  | ErrorTypeTooMany => "Too many"
  | ErrorTypeInternal => "Internal error"
  | ErrorTypeTypeInvalid => "Invalid value"
  end.

Definition badValueString (v : BadValue) : string :=
  match v with
  | BadString s => quote ++ s ++ quote
  | BadInt n => sprint_d n
  | BadNil => "null"
  end.

(** A rendering of a field error in the manner of the library: the path,
    the type, the value where the type shows one, and the detail. *)
Definition fieldErrorText (e : FieldError) : string :=
  pathString true (Field e) ++ ": "
  ++ match Type_ e with
     | ErrorTypeRequired | ErrorTypeForbidden | ErrorTypeTooLong
     | ErrorTypeInternal => errorTypeString (Type_ e)
     | _ => errorTypeString (Type_ e) ++ ": " ++ badValueString (Value e)
     end
  ++ (if String.eqb (Detail e) "" then "" else ": " ++ Detail e).

(** Two outcomes that differ at most in the order of their faults: two
    aggregates with the same warnings whose messages are a permutation of
    each other, or the same outcome. *)
Definition sameUpToOrder (ErrorString : FieldError -> string)
           (out1 out2 : Outcome) : Prop :=
  match out1, out2 with
  | Returned w1 (ErrAggregate errs1), Returned w2 (ErrAggregate errs2) =>
      w1 = w2 /\ Permutation (map ErrorString errs1) (map ErrorString errs2)
  | _, _ => out1 = out2
  end.

(** * Properties *)

(** ** Range loops that only append *)

Lemma range_from_appends {A B : Type} (body : list B -> nat -> A -> list B)
      (g : nat -> A -> list B) :
  (forall el i x, body el i x = el ++ g i x) ->
  forall xs i el, range_from body i xs el = el ++ found_from g i xs.
Proof.
  intros Hbody xs.
  induction xs as [|x rest IH]; intros i el; simpl.
  - now rewrite app_nil_r.
  - rewrite IH, Hbody, <- app_assoc. reflexivity.
Qed.

Lemma in_found_from {A B : Type} (g : nat -> A -> list B) (b : B) :
  forall xs i,
    In b (found_from g i xs) <->
    exists k x, nth_error xs k = Some x /\ In b (g (i + k) x).
Proof.
  induction xs as [|x rest IH]; intros i; simpl.
  - split; [tauto|]. intros (k & x & Hk & _). destruct k; discriminate.
  - rewrite in_app_iff, IH. split.
    + intros [H | (k & y & Hk & Hin)].
      * exists 0, x. rewrite Nat.add_0_r. split; [reflexivity | assumption].
      * exists (S k), y. rewrite Nat.add_succ_r. split; assumption.
    + intros (k & y & Hk & Hin). destruct k as [|k]; simpl in Hk.
      * injection Hk as <-. rewrite Nat.add_0_r in Hin. now left.
      * right. exists k, y. rewrite Nat.add_succ_r in Hin. split; assumption.
Qed.

(** ** The index printed into a path *)

Lemma length_append (s t : string) :
  String.length (s ++ t) = String.length s + String.length t.
Proof. induction s as [|c s IH]; simpl; [reflexivity | now rewrite IH]. Qed.

Lemma append_cancel_r (t s1 s2 : string) :
  (s1 ++ t)%string = (s2 ++ t)%string -> s1 = s2.
Proof.
  revert s2. induction s1 as [|c s1 IH]; intros [|d s2] H; simpl in H.
  - reflexivity.
  - exfalso. apply (f_equal String.length) in H.
    simpl in H. rewrite length_append in H. lia.
  - exfalso. apply (f_equal String.length) in H.
    simpl in H. rewrite length_append in H. lia.
  - injection H as -> H. f_equal. now apply IH.
Qed.

Lemma sprint_d_inj (i j : nat) : sprint_d i = sprint_d j -> i = j.
Proof.
  unfold sprint_d. intros H.
  apply DecimalNat.Unsigned.to_uint_inj.
  apply (f_equal NilEmpty.uint_of_string) in H.
  rewrite !NilEmpty.usu in H. now injection H.
Qed.

(** The section below abbreviates the functions of the webhook at its two
    library functions; these tactics unfold the functions themselves. *)
Ltac unfold_ValidateUpdate := unfold ValidateUpdate.
Ltac unfold_ValidateCreate := unfold ValidateCreate.
Ltac unfold_validateErrors := unfold validateErrors, range.
Ltac unfold_ToAggregate := unfold ToAggregate.
Ltac unfold_faultOrigin := unfold faultOrigin.

Section WebhookProperties.

Variable ValidateLabelSelector : option LabelSelector -> Path -> ErrorList.
Variable ErrorString : FieldError -> string.

Local Abbreviation validate := (validate ValidateLabelSelector ErrorString).
Local Abbreviation ValidateCreate := (ValidateCreate ValidateLabelSelector ErrorString).
Local Abbreviation ValidateUpdate := (ValidateUpdate ValidateLabelSelector ErrorString).
Local Abbreviation validateErrors := (validateErrors ValidateLabelSelector).
Local Abbreviation ToAggregate := (ToAggregate ErrorString).
Local Abbreviation uniqueMsgs := (uniqueMsgs ErrorString).

(** ** ToAggregate *)

Lemma hasMsg_In (seen : list string) (msg : string) :
  hasMsg seen msg = true <-> In msg seen.
Proof.
  unfold hasMsg. rewrite existsb_exists. split.
  - intros (x & Hx & Heq). apply String.eqb_eq in Heq. now subst.
  - intros H. exists msg. split; [assumption | apply String.eqb_refl].
Qed.

Lemma uniqueMsgs_incl (list_ : ErrorList) :
  forall seen e, In e (uniqueMsgs seen list_) -> In e list_.
Proof.
  induction list_ as [|err rest IH]; intros seen e; simpl; [tauto|].
  destruct (hasMsg seen (ErrorString err)).
  - intros H. right. eapply IH, H.
  - intros [<- | H]; [now left | right; eapply IH, H].
Qed.

Lemma uniqueMsgs_keeps_messages (list_ : ErrorList) :
  forall seen e,
    In e list_ ->
    In (ErrorString e) seen \/
    In (ErrorString e) (map ErrorString (uniqueMsgs seen list_)).
Proof.
  induction list_ as [|err rest IH]; intros seen e; simpl; [tauto|].
  intros [-> | Hin].
  - destruct (hasMsg seen (ErrorString e)) eqn:Hseen.
    + left. now apply hasMsg_In.
    + right. simpl. now left.
  - destruct (hasMsg seen (ErrorString err)) eqn:Hseen.
    + now apply IH.
    + destruct (IH (ErrorString err :: seen) e Hin) as [[Heq | Hs] | Hr].
      * right. simpl. now left.
      * now left.
      * right. simpl. now right.
Qed.

Lemma ToAggregate_single (e : FieldError) :
  ToAggregate [e] = ErrAggregate [e].
Proof. reflexivity. Qed.

(** Every fault of an aggregate was in the list, and every message of the
    list is a message of the aggregate. *)
Lemma ToAggregate_faults (el : ErrorList) :
  el <> [] ->
  exists errs,
    ToAggregate el = ErrAggregate errs /\
    (forall e, In e errs -> In e el) /\
    (forall e, In e el -> In (ErrorString e) (map ErrorString errs)).
Proof.
  intros Hne. exists (uniqueMsgs [] el). split; [|split].
  - destruct el; [contradiction | reflexivity].
  - intros e. apply uniqueMsgs_incl.
  - intros e Hin.
    destruct (uniqueMsgs_keeps_messages el [] e Hin) as [[] | H]. exact H.
Qed.

(** ** validate *)

Lemma validate_bundle (log : Log) (bundle : Bundle) :
  validate log (ObjBundle (Some bundle)) =
  (log ++ [validationEntry bundle],
   Returned [] (ToAggregate (validateErrors bundle))).
Proof. reflexivity. Qed.

(** A run of [validate] on a bundle leaves its entry in the log. *)
Lemma validate_writes_log (log : Log) (bundle : Bundle) :
  fst (validate log (ObjBundle (Some bundle))) <> log.
Proof.
  rewrite validate_bundle. simpl. intros H.
  apply (f_equal (@length LogEntry)) in H.
  rewrite length_app in H. simpl in H. lia.
Qed.

(** ** ValidateUpdate *)

Lemma ValidateUpdate_configMap_removed (log : Log) (old new : Bundle) :
  TargetConfigMap (Target (Spec old)) <> None ->
  TargetConfigMap (Target (Spec new)) = None ->
  ValidateUpdate log (ObjBundle (Some old)) (ObjBundle (Some new)) =
  (log, Returned [] (ErrAggregate [configMapRemovalFault])).
Proof.
  intros Hold Hnew. unfold_ValidateUpdate. simpl.
  destruct (TargetConfigMap (Target (Spec old))); [|contradiction].
  rewrite Hnew. reflexivity.
Qed.

Lemma ValidateUpdate_secret_removed (log : Log) (old new : Bundle) :
  TargetSecret (Target (Spec old)) <> None ->
  TargetSecret (Target (Spec new)) = None ->
  ~ (TargetConfigMap (Target (Spec old)) <> None /\
     TargetConfigMap (Target (Spec new)) = None) ->
  ValidateUpdate log (ObjBundle (Some old)) (ObjBundle (Some new)) =
  (log, Returned [] (ErrAggregate [secretRemovalFault])).
Proof.
  intros Hold Hnew Hcm. unfold_ValidateUpdate. simpl.
  destruct (TargetSecret (Target (Spec old))); [|contradiction].
  rewrite Hnew.
  destruct (TargetConfigMap (Target (Spec old))) as [c|],
           (TargetConfigMap (Target (Spec new))) as [c'|]; simpl;
    try reflexivity.
  exfalso. apply Hcm. split; [discriminate | reflexivity].
Qed.

(** When no target is removed the update is validated like a creation. *)
Lemma ValidateUpdate_no_removal (log : Log) (old new : Bundle) :
  (TargetConfigMap (Target (Spec old)) <> None ->
   TargetConfigMap (Target (Spec new)) <> None) ->
  (TargetSecret (Target (Spec old)) <> None ->
   TargetSecret (Target (Spec new)) <> None) ->
  ValidateUpdate log (ObjBundle (Some old)) (ObjBundle (Some new)) =
  validate log (ObjBundle (Some new)).
Proof.
  intros Hcm Hs. unfold_ValidateUpdate. simpl.
  destruct (TargetConfigMap (Target (Spec old))) as [c|],
           (TargetConfigMap (Target (Spec new))) as [c'|],
           (TargetSecret (Target (Spec old))) as [s|],
           (TargetSecret (Target (Spec new))) as [s'|]; simpl;
    try reflexivity;
    try (exfalso; apply Hcm; [discriminate | reflexivity]);
    try (exfalso; apply Hs; [discriminate | reflexivity]).
Qed.

(** ** The faults [validate] collects *)

Lemma selectorsBody_appends (path : Path) (el : ErrorList) (i : nat)
      (source : BundleSource) :
  selectorsBody ValidateLabelSelector path el i source =
  el ++ selectorsFound ValidateLabelSelector path i source.
Proof.
  unfold selectorsBody, selectorsFound.
  destruct (SourceConfigMap source), (SourceSecret source); simpl;
    rewrite ?app_nil_r, <- ?app_assoc; reflexivity.
Qed.

Lemma configMapBody_appends (name : string) (target : KeySelector)
      (el : ErrorList) (i : nat) (source : BundleSource) :
  configMapBody name target (Child (NewPath "spec") ["sources"]) el i source =
  el ++ configMapFound name target i source.
Proof.
  unfold configMapBody, configMapFound, sameAsTarget.
  destruct (SourceConfigMap source) as [cm|]; [|now rewrite app_nil_r].
  destruct (_ && _)%bool; [reflexivity | now rewrite app_nil_r].
Qed.

Lemma secretBody_appends (name : string) (target : KeySelector)
      (el : ErrorList) (i : nat) (source : BundleSource) :
  secretBody name target (Child (NewPath "spec") ["sources"]) el i source =
  el ++ secretFound name target i source.
Proof.
  unfold secretBody, secretFound, sameAsTarget.
  destruct (SourceSecret source) as [s|]; [|now rewrite app_nil_r].
  destruct (_ && _)%bool; [reflexivity | now rewrite app_nil_r].
Qed.

(** The error list of [validate], loop by loop. *)
Lemma validateErrors_eq (bundle : Bundle) :
  validateErrors bundle =
  found_from (selectorsFound ValidateLabelSelector (NewPath "spec")) 0
             (Sources (Spec bundle))
  ++ match TargetConfigMap (Target (Spec bundle)) with
     | Some target =>
         found_from (configMapFound (Name bundle) target) 0
                    (Sources (Spec bundle))
     | None => []
     end
  ++ match TargetSecret (Target (Spec bundle)) with
     | Some target =>
         found_from (secretFound (Name bundle) target) 0
                    (Sources (Spec bundle))
     | None => []
     end
  ++ ValidateLabelSelector (NamespaceSelector (Target (Spec bundle)))
       [PName "spec"; PName "target"; PName "namespaceSelector"].
Proof.
  unfold_validateErrors.
  rewrite (range_from_appends _ _ (selectorsBody_appends (NewPath "spec"))).
  change ([] ++ ?x) with x.
  destruct (TargetConfigMap (Target (Spec bundle))) as [t|],
           (TargetSecret (Target (Spec bundle))) as [t'|].
  - rewrite (range_from_appends _ _ (configMapBody_appends (Name bundle) t)).
    rewrite (range_from_appends _ _ (secretBody_appends (Name bundle) t')).
    rewrite <- !app_assoc. reflexivity.
  - rewrite (range_from_appends _ _ (configMapBody_appends (Name bundle) t)).
    rewrite <- !app_assoc. reflexivity.
  - rewrite (range_from_appends _ _ (secretBody_appends (Name bundle) t')).
    rewrite <- !app_assoc. reflexivity.
  - reflexivity.
Qed.

Lemma faultsOf_validate_incl (log : Log) (bundle : Bundle) (e : FieldError) :
  In e (faultsOf (snd (validate log (ObjBundle (Some bundle))))) ->
  In e (validateErrors bundle).
Proof.
  rewrite validate_bundle. simpl snd.
  destruct (validateErrors bundle) as [|e0 el] eqn:Hel; [simpl; tauto|].
  unfold_ToAggregate. unfold faultsOf. apply uniqueMsgs_incl.
Qed.

Lemma faultsOf_validate_message (log : Log) (bundle : Bundle) (e : FieldError) :
  In e (validateErrors bundle) ->
  In (ErrorString e)
     (map ErrorString (faultsOf (snd (validate log (ObjBundle (Some bundle)))))).
Proof.
  intros Hin. rewrite validate_bundle. simpl snd.
  assert (Hne : validateErrors bundle <> []) by (intros H; now rewrite H in Hin).
  destruct (ToAggregate_faults Hne) as (errs & -> & _ & Hmsg).
  simpl. now apply Hmsg.
Qed.

Lemma sameAsTarget_true (name : string) (target : KeySelector)
      (sel : SourceObjectKeySelector) :
  sameAsTarget name target sel = true <->
  SrcName sel = name /\ SrcKey sel = Key target.
Proof.
  unfold sameAsTarget. rewrite andb_true_iff, !String.eqb_eq. tauto.
Qed.

Lemma selectorsFound_detail (path : Path) (detail : string) :
  neverReports ValidateLabelSelector detail ->
  forall xs i e,
    In e (found_from (selectorsFound ValidateLabelSelector path) i xs) ->
    Detail e <> detail.
Proof.
  intros Hnever xs i e Hin.
  apply in_found_from in Hin. destruct Hin as (k & x & _ & Hin).
  unfold selectorsFound in Hin. apply in_app_or in Hin.
  destruct Hin as [Hin | Hin].
  - destruct (SourceConfigMap x); [eapply Hnever, Hin | destruct Hin].
  - destruct (SourceSecret x); [eapply Hnever, Hin | destruct Hin].
Qed.

(** ** The claims on the webhook *)

(** C1, as amended.  When the previous bundle has a target configMap and
    the proposed one has none, ValidateUpdate returns the single fault
    "target configMap removal is not allowed" and leaves the log as it was:
    [validate] did not run.  When the previous bundle has a target secret
    and the proposed one has none, and the configMap is not removed in the
    same update, it returns the single fault "target secret removal is not
    allowed", again without running [validate].  A run of [validate] on the
    proposed bundle would have written to the log. *)
Theorem ValidateUpdate_rejects_target_removal
        (log : Log) (old new : Bundle) :
  (TargetConfigMap (Target (Spec old)) <> None ->
   TargetConfigMap (Target (Spec new)) = None ->
   ValidateUpdate log (ObjBundle (Some old)) (ObjBundle (Some new)) =
   (log, Returned [] (ErrAggregate [configMapRemovalFault])))
  /\
  (TargetSecret (Target (Spec old)) <> None ->
   TargetSecret (Target (Spec new)) = None ->
   ~ (TargetConfigMap (Target (Spec old)) <> None /\
      TargetConfigMap (Target (Spec new)) = None) ->
   ValidateUpdate log (ObjBundle (Some old)) (ObjBundle (Some new)) =
   (log, Returned [] (ErrAggregate [secretRemovalFault])))
  /\
  fst (validate log (ObjBundle (Some new))) <> log.
Proof.
  split; [|split].
  - apply ValidateUpdate_configMap_removed.
  - apply ValidateUpdate_secret_removed.
  - apply validate_writes_log.
Qed.

(** C2.  A source at index [i] that names the bundle itself in its
    configMap (resp. secret) and reads the key the target configMap (resp.
    secret) writes makes [validate] return an aggregate with the message of
    the fault "cannot define the same source as target" at
    spec.sources.[i].configMap.name.key (resp. secret), each kind on its
    own.  When the key of the source differs from the key of the target of
    its kind, no fault of that detail lies under the path of that source
    and kind, as long as the selector validator does not report that detail
    itself. *)
Theorem validate_same_source_as_target
        (log : Log) (bundle : Bundle) (i : nat) (source : BundleSource) :
  nth_error (Sources (Spec bundle)) i = Some source ->
  let out := snd (validate log (ObjBundle (Some bundle))) in
  (forall cm target,
      SourceConfigMap source = Some cm ->
      TargetConfigMap (Target (Spec bundle)) = Some target ->
      SrcName cm = Name bundle ->
      SrcKey cm = Key target ->
      In (ErrorString (sameSourceFault i "configMap" cm))
         (map ErrorString (faultsOf out)))
  /\
  (forall secret target,
      SourceSecret source = Some secret ->
      TargetSecret (Target (Spec bundle)) = Some target ->
      SrcName secret = Name bundle ->
      SrcKey secret = Key target ->
      In (ErrorString (sameSourceFault i "secret" secret))
         (map ErrorString (faultsOf out)))
  /\
  (forall cm,
      SourceConfigMap source = Some cm ->
      (forall target, TargetConfigMap (Target (Spec bundle)) = Some target ->
                      SrcKey cm <> Key target) ->
      neverReports ValidateLabelSelector sameSourceAsTarget ->
      forall e, In e (faultsOf out) ->
                Detail e = sameSourceAsTarget ->
                ~ isPrefix (sourceKindPath i "configMap") (Field e))
  /\
  (forall secret,
      SourceSecret source = Some secret ->
      (forall target, TargetSecret (Target (Spec bundle)) = Some target ->
                      SrcKey secret <> Key target) ->
      neverReports ValidateLabelSelector sameSourceAsTarget ->
      forall e, In e (faultsOf out) ->
                Detail e = sameSourceAsTarget ->
                ~ isPrefix (sourceKindPath i "secret") (Field e)).
Proof.
  intros Hnth out. subst out. repeat split.
  - intros cm target Hcm Htarget Hname Hkey.
    apply faultsOf_validate_message. rewrite validateErrors_eq, Htarget.
    apply in_or_app. right. apply in_or_app. left.
    apply in_found_from. exists i, source. split; [assumption|].
    unfold configMapFound. rewrite Hcm.
    replace (sameAsTarget (Name bundle) target cm) with true
      by (symmetry; now apply sameAsTarget_true).
    now left.
  - intros secret target Hs Htarget Hname Hkey.
    apply faultsOf_validate_message. rewrite validateErrors_eq, Htarget.
    apply in_or_app. right. apply in_or_app. right. apply in_or_app. left.
    apply in_found_from. exists i, source. split; [assumption|].
    unfold secretFound. rewrite Hs.
    replace (sameAsTarget (Name bundle) target secret) with true
      by (symmetry; now apply sameAsTarget_true).
    now left.
  - intros cm Hcm Hkey Hnever e Hin Hdetail (rest & Hfield).
    apply faultsOf_validate_incl in Hin. rewrite validateErrors_eq in Hin.
    apply in_app_or in Hin. destruct Hin as [Hin | Hin].
    { exact (@selectorsFound_detail _ _ Hnever _ _ _ Hin Hdetail). }
    apply in_app_or in Hin. destruct Hin as [Hin | Hin].
    { destruct (TargetConfigMap (Target (Spec bundle))) as [t|]; [|destruct Hin].
      apply in_found_from in Hin. destruct Hin as (k & x & Hk & Hin).
      unfold configMapFound in Hin.
      destruct (SourceConfigMap x) as [cm'|] eqn:Hcm'; [|destruct Hin].
      destruct (sameAsTarget (Name bundle) t cm') eqn:Hsame; [|destruct Hin].
      destruct Hin as [<- | []].
      cbn [Field sameSourceFault Forbidden sourceKindPath app] in Hfield.
      injection Hfield as Hidx _.
      apply append_cancel_r, sprint_d_inj in Hidx. subst k.
      rewrite Hnth in Hk. injection Hk as <-.
      rewrite Hcm in Hcm'. injection Hcm' as <-.
      apply sameAsTarget_true in Hsame. now apply (Hkey t). }
    apply in_app_or in Hin. destruct Hin as [Hin | Hin].
    { destruct (TargetSecret (Target (Spec bundle))) as [t|]; [|destruct Hin].
      apply in_found_from in Hin. destruct Hin as (k & x & Hk & Hin).
      unfold secretFound in Hin.
      destruct (SourceSecret x) as [s'|]; [|destruct Hin].
      destruct (sameAsTarget (Name bundle) t s'); [|destruct Hin].
      destruct Hin as [<- | []]. simpl in Hfield. discriminate. }
    exact (Hnever _ _ _ Hin Hdetail).
  - intros secret Hs Hkey Hnever e Hin Hdetail (rest & Hfield).
    apply faultsOf_validate_incl in Hin. rewrite validateErrors_eq in Hin.
    apply in_app_or in Hin. destruct Hin as [Hin | Hin].
    { exact (@selectorsFound_detail _ _ Hnever _ _ _ Hin Hdetail). }
    apply in_app_or in Hin. destruct Hin as [Hin | Hin].
    { destruct (TargetConfigMap (Target (Spec bundle))) as [t|]; [|destruct Hin].
      apply in_found_from in Hin. destruct Hin as (k & x & Hk & Hin).
      unfold configMapFound in Hin.
      destruct (SourceConfigMap x) as [cm'|]; [|destruct Hin].
      destruct (sameAsTarget (Name bundle) t cm'); [|destruct Hin].
      destruct Hin as [<- | []]. simpl in Hfield. discriminate. }
    apply in_app_or in Hin. destruct Hin as [Hin | Hin].
    { destruct (TargetSecret (Target (Spec bundle))) as [t|]; [|destruct Hin].
      apply in_found_from in Hin. destruct Hin as (k & x & Hk & Hin).
      unfold secretFound in Hin.
      destruct (SourceSecret x) as [s'|] eqn:Hs'; [|destruct Hin].
      destruct (sameAsTarget (Name bundle) t s') eqn:Hsame; [|destruct Hin].
      destruct Hin as [<- | []].
      cbn [Field sameSourceFault Forbidden sourceKindPath app] in Hfield.
      injection Hfield as Hidx _.
      apply append_cancel_r, sprint_d_inj in Hidx. subst k.
      rewrite Hnth in Hk. injection Hk as <-.
      rewrite Hs in Hs'. injection Hs' as <-.
      apply sameAsTarget_true in Hsame. now apply (Hkey t). }
    exact (Hnever _ _ _ Hin Hdetail).
Qed.

(** C7.  On a bundle without sources [validate] returns: no loop body
    runs, the log gets its entry, and the error is the aggregate of what
    the selector validator finds in the namespace selector of the target,
    nil when it finds nothing. *)
Theorem validate_no_sources (log : Log) (bundle : Bundle) :
  Sources (Spec bundle) = [] ->
  validate log (ObjBundle (Some bundle)) =
  (log ++ [validationEntry bundle],
   Returned []
     (ToAggregate
        (ValidateLabelSelector (NamespaceSelector (Target (Spec bundle)))
           [PName "spec"; PName "target"; PName "namespaceSelector"]))).
Proof.
  intros Hsrc. rewrite validate_bundle, validateErrors_eq, Hsrc. simpl.
  destruct (TargetConfigMap (Target (Spec bundle))),
           (TargetSecret (Target (Spec bundle))); reflexivity.
Qed.

(** C8.  ValidateDelete returns no warning and no error for every object,
    a bundle or not, and calls nothing: the log is as it was. *)
Theorem ValidateDelete_always_allows (log : Log) (obj : Object) :
  ValidateDelete log obj = (log, Returned [] ErrNil).
Proof. reflexivity. Qed.

(** C9.  When the previous bundle has both targets and the proposed one
    has neither, ValidateUpdate returns exactly one fault, the removal of
    the configMap at spec.target.configmap; the removal of the secret is
    not reported. *)
Theorem ValidateUpdate_both_targets_removed (log : Log) (old new : Bundle) :
  TargetConfigMap (Target (Spec old)) <> None ->
  TargetSecret (Target (Spec old)) <> None ->
  TargetConfigMap (Target (Spec new)) = None ->
  TargetSecret (Target (Spec new)) = None ->
  let out := snd (ValidateUpdate log (ObjBundle (Some old))
                                 (ObjBundle (Some new))) in
  out = Returned [] (ErrAggregate [configMapRemovalFault]) /\
  length (faultsOf out) = 1 /\
  Field configMapRemovalFault =
    [PName "spec"; PName "target"; PName "configmap"] /\
  Detail configMapRemovalFault = "target configMap removal is not allowed" /\
  hasDetail secretRemoval (faultsOf out) = false.
Proof.
  intros Hcm _ Hcm' _ out. subst out.
  rewrite (ValidateUpdate_configMap_removed log old new Hcm Hcm').
  repeat split.
Qed.

(** C10.  Two previous bundles that agree on whether their target
    configMap is nil and on whether their target secret is nil give the
    same result of ValidateUpdate, log included, against every proposed
    object. *)
Theorem ValidateUpdate_previous_only_through_targets
        (log : Log) (old1 old2 : Bundle) (newObj : Object) :
  isNil (TargetConfigMap (Target (Spec old1))) =
  isNil (TargetConfigMap (Target (Spec old2))) ->
  isNil (TargetSecret (Target (Spec old1))) =
  isNil (TargetSecret (Target (Spec old2))) ->
  ValidateUpdate log (ObjBundle (Some old1)) newObj =
  ValidateUpdate log (ObjBundle (Some old2)) newObj.
Proof.
  intros Hcm Hs. unfold_ValidateUpdate. simpl.
  rewrite Hcm, Hs. reflexivity.
Qed.

End WebhookProperties.

(** ** The instances *)

Lemma checkOperators_neverReports (detail : string) :
  detail <> invalidOperator -> neverReports checkOperators detail.
Proof.
  intros Hne sel p e Hin Hdetail. apply Hne. rewrite <- Hdetail.
  destruct sel as [ps|]; [|destruct Hin]. simpl in Hin.
  apply in_found_from in Hin. destruct Hin as (k & expr & _ & Hin).
  destruct (validOperator (ReqOperator expr)); [destruct Hin|].
  destruct Hin as [<- | []]. reflexivity.
Qed.

(** ** Examples of the webhook claims *)

(** The two removal rules on bundles that lose one target. *)
Lemma ValidateUpdate_rejects_target_removal_witness :
  ValidateUpdate checkOperators fieldErrorString []
                 (ObjBundle (Some bothTargets)) (ObjBundle (Some onlySecret)) =
  ([], Returned [] (ErrAggregate [configMapRemovalFault]))
  /\
  ValidateUpdate checkOperators fieldErrorString []
                 (ObjBundle (Some bothTargets)) (ObjBundle (Some onlyConfigMap)) =
  ([], Returned [] (ErrAggregate [secretRemovalFault])).
Proof.
  split.
  - apply (proj1 (@ValidateUpdate_rejects_target_removal
                    checkOperators fieldErrorString []
                    bothTargets onlySecret)).
    + discriminate.
    + reflexivity.
  - apply (proj1 (proj2 (@ValidateUpdate_rejects_target_removal
                           checkOperators fieldErrorString []
                           bothTargets onlyConfigMap))).
    + discriminate.
    + reflexivity.
    + intros [_ H]. discriminate H.
Defined.

(** The rule on the secret, read without its condition, fails when
    the configMap is removed in the same update: the secret was set, the
    proposed bundle has none, and the fault returned is that of the
    configMap. *)
Lemma ValidateUpdate_secret_removal_masked :
  TargetSecret (Target (Spec bothTargets)) <> None /\
  TargetSecret (Target (Spec noTargets)) = None /\
  ValidateUpdate checkOperators fieldErrorString []
                 (ObjBundle (Some bothTargets)) (ObjBundle (Some noTargets)) <>
  ([], Returned [] (ErrAggregate [secretRemovalFault])) /\
  hasDetail secretRemoval
    (faultsOf (snd (ValidateUpdate checkOperators fieldErrorString []
                      (ObjBundle (Some bothTargets))
                      (ObjBundle (Some noTargets))))) = false.
Proof.
  split; [discriminate|]. split; [reflexivity|]. split.
  - vm_compute. discriminate.
  - reflexivity.
Qed.

(** The self-reference rule on a bundle whose second source reads the configMap key the target
    writes and another key of the secret, under a namespace selector that
    the selector validator rejects. *)
Lemma validate_same_source_as_target_witness :
  let bundle := withNamespaceSelector (Some badSelector)
                  (selfBundle "ca-bundle.crt" "other.crt") in
  let out := snd (validate checkOperators fieldErrorString []
                           (ObjBundle (Some bundle))) in
  In (fieldErrorString (sameSourceFault 1 "configMap"
                                        (selfSelector "ca-bundle.crt")))
     (map fieldErrorString (faultsOf out))
  /\
  (forall e, In e (faultsOf out) ->
             Detail e = sameSourceAsTarget ->
             ~ isPrefix (sourceKindPath 1 "secret") (Field e)).
Proof.
  intros bundle out.
  pose proof (@validate_same_source_as_target
                checkOperators fieldErrorString [] bundle 1
                (selfSource "ca-bundle.crt" "other.crt") eq_refl)
    as (Hcm & _ & _ & Hsecret).
  split.
  - apply (Hcm (selfSelector "ca-bundle.crt") (keyOnly "ca-bundle.crt"));
      reflexivity.
  - apply (Hsecret (selfSelector "other.crt")).
    + reflexivity.
    + intros target Htarget. injection Htarget as <-. discriminate.
    + apply checkOperators_neverReports. discriminate.
Defined.

(** The proposed bundle of the first example passes [validate] on its own:
    the update is rejected for the removal alone. *)
Example onlySecret_passes_validate :
  snd (validate checkOperators fieldErrorString []
                (ObjBundle (Some onlySecret))) = Returned [] ErrNil.
Proof. reflexivity. Qed.

(** A nil Bundle pointer makes [validate] panic, an object of another type
    makes it return an error. *)
Example validate_not_a_bundle :
  snd (validate checkOperators fieldErrorString [] (ObjBundle None)) =
  Panicked nilDereference /\
  snd (validate checkOperators fieldErrorString [] (ObjOther "*v1.Pod")) =
  Returned [] (ErrFmt "expected a Bundle, but got a *v1.Pod").
Proof. split; reflexivity. Qed.

(** The webhook on a bundle without sources. *)
Lemma validate_no_sources_witness :
  validate checkOperators fieldErrorString []
           (ObjBundle (Some (bundleOf "trust" [] None None))) =
  ([validationEntry (bundleOf "trust" [] None None)], Returned [] ErrNil).
Proof.
  apply (validate_no_sources checkOperators fieldErrorString []
                             (bundleOf "trust" [] None None)).
  reflexivity.
Defined.

(** An update in which the bundle loses both targets. *)
Lemma ValidateUpdate_both_targets_removed_witness :
  snd (ValidateUpdate checkOperators fieldErrorString []
                      (ObjBundle (Some bothTargets))
                      (ObjBundle (Some noTargets))) =
  Returned [] (ErrAggregate [configMapRemovalFault]).
Proof.
  apply (@ValidateUpdate_both_targets_removed
           checkOperators fieldErrorString [] bothTargets noTargets).
  - discriminate.
  - discriminate.
  - reflexivity.
  - reflexivity.
Defined.

(** An update against two previous bundles with a configMap target and no secret,
    which differ in their name, sources and key. *)
Lemma ValidateUpdate_previous_only_through_targets_witness :
  ValidateUpdate checkOperators fieldErrorString []
                 (ObjBundle (Some onlyConfigMap))
                 (ObjBundle (Some noTargets)) =
  ValidateUpdate checkOperators fieldErrorString []
                 (ObjBundle (Some (bundleOf "other" [] (Some (keyOnly "k"))
                                            None)))
                 (ObjBundle (Some noTargets)).
Proof.
  apply (@ValidateUpdate_previous_only_through_targets
           checkOperators fieldErrorString []
           onlyConfigMap (bundleOf "other" [] (Some (keyOnly "k")) None)
           (ObjBundle (Some noTargets)));
    reflexivity.
Defined.

(** ** The rules declared with the API types *)

(** The count of populated members is 1 exactly in the four ways of
    [exactlyOne]. *)
Lemma countPopulated_one (source : BundleSource) :
  countPopulated source = 1 <-> exactlyOne source.
Proof.
  unfold countPopulated, populated, defaultCAsRequested, exactlyOne, isSet.
  destruct (SourceConfigMap source) as [cm|], (SourceSecret source) as [s|],
           (InLine source) as [l|], (UseDefaultCAs source) as [[|]|];
    simpl; split; intros H;
    try discriminate H; try reflexivity;
    try (left; repeat split; discriminate);
    try (right; left; repeat split; discriminate);
    try (right; right; left; repeat split; discriminate);
    try (right; right; right; repeat split; discriminate);
    exfalso;
    destruct H as [(H1 & H2 & H3 & H4) | [(H1 & H2 & H3 & H4) |
                   [(H1 & H2 & H3 & H4) | (H1 & H2 & H3 & H4)]]];
    congruence.
Qed.

(** C3.  A source that populates exactly one of configMap, secret, inLine
    and useDefaultCAs == true gets no fault from the rule on source items;
    every other source gets the one fault "must define exactly one source"
    at its index.  A source with nothing but useDefaultCAs == false is among
    the others. *)
Theorem validateSourceItem_exactly_one
        (path : Path) (i : nat) (source : BundleSource) :
  (exactlyOne source -> validateSourceItem path i source = []) /\
  (~ exactlyOne source ->
   validateSourceItem path i source = [exactlyOneFault path i]) /\
  (SourceConfigMap source = None -> SourceSecret source = None ->
   InLine source = None -> UseDefaultCAs source = Some false ->
   validateSourceItem path i source = [exactlyOneFault path i]).
Proof.
  assert (Hno : ~ exactlyOne source ->
                validateSourceItem path i source = [exactlyOneFault path i]).
  { intros Hnot. unfold validateSourceItem.
    destruct (Nat.eqb (countPopulated source) 1) eqn:Hcount.
    - apply Nat.eqb_eq, countPopulated_one in Hcount. contradiction.
    - unfold exactlyOneFault, Index, Child. simpl.
      now rewrite <- app_assoc. }
  split; [|split].
  - intros Hone. unfold validateSourceItem.
    apply countPopulated_one in Hone. now rewrite Hone.
  - exact Hno.
  - intros Hcm Hs Hl Hd. apply Hno. unfold exactlyOne.
    rewrite Hcm, Hs, Hl, Hd.
    intros [(H & _) | [(_ & H & _) | [(_ & _ & H & _) | (_ & _ & _ & H)]]];
      try now apply H. discriminate H.
Qed.

Lemma validateSourceItem_exactly_one_witness :
  validateSourceItem (NewPath "spec") 0 defaultCAs = [] /\
  validateSourceItem (NewPath "spec") 0
    {| SourceConfigMap := None; SourceSecret := None; InLine := None;
       UseDefaultCAs := Some false |}
  = [exactlyOneFault (NewPath "spec") 0].
Proof.
  split.
  - apply (proj1 (validateSourceItem_exactly_one (NewPath "spec") 0 defaultCAs)).
    right. right. right. repeat split.
  - apply (proj2 (proj2 (validateSourceItem_exactly_one (NewPath "spec") 0
             {| SourceConfigMap := None; SourceSecret := None; InLine := None;
                UseDefaultCAs := Some false |}))); reflexivity.
Defined.

(** The rule agrees with every entry of the test table. *)
Example sourceItemTable_agrees :
  forallb (fun entry =>
             agrees exactlyOneSource
                    (validateSourceItem (NewPath "spec") 0 (fst entry))
                    (snd entry))
          sourceItemTable = true.
Proof. reflexivity. Qed.

Lemma memKey_In (k : string) (keys : list string) :
  memKey k keys = true <-> In k keys.
Proof.
  unfold memKey. rewrite existsb_exists. split.
  - intros (x & Hx & Heq). apply String.eqb_eq in Heq. now subst.
  - intros H. exists k. split; [assumption | apply String.eqb_refl].
Qed.

Lemma In_optional_key {A : Type} (o : option A) (f : A -> string)
      (k : string) :
  In k (match o with Some x => [f x] | None => [] end) <->
  exists x, o = Some x /\ f x = k.
Proof.
  destruct o as [a|]; simpl; split.
  - intros [H | []]. exists a. split; [reflexivity | assumption].
  - intros (x & Hx & Hk). injection Hx as <-. now left.
  - intros [].
  - intros (x & Hx & _). discriminate Hx.
Qed.

Lemma In_primaryKeys (target : BundleTarget) (k : string) :
  In k (primaryKeys target) <-> isPrimaryKey target k.
Proof.
  unfold primaryKeys, isPrimaryKey.
  rewrite in_app_iff, !In_optional_key. reflexivity.
Qed.

Lemma In_additionalKeys (target : BundleTarget) (k : string) :
  In k (additionalKeys target) <-> isAdditionalKey target k.
Proof.
  unfold additionalKeys, isAdditionalKey.
  rewrite in_app_iff, !(In_optional_key _ (fun x => x)).
  split; intros [H | H].
  - left. destruct H as (x & Hx & <-). exact Hx.
  - right. destruct H as (x & Hx & <-). exact Hx.
  - left. now exists k.
  - right. now exists k.
Qed.

(** C4.  When an additional format key (JKS or PKCS12) equals the key of
    the target configMap or secret, the rule on additional keys reports
    "additional format keys must be different from configMap/secret keys";
    when the JKS key and the PKCS12 key are both present and equal, it
    reports "additional format keys must be unique"; when no additional
    key is a primary key and the two additional keys differ, it reports
    nothing. *)
Theorem validateAdditionalKeys_distinct (path : Path) (target : BundleTarget) :
  (forall k, isAdditionalKey target k -> isPrimaryKey target k ->
             In (targetFault path additionalKeysDiffer)
                (validateAdditionalKeys path target)) /\
  (forall k, jksKey target = Some k -> pkcs12Key target = Some k ->
             In (targetFault path additionalKeysUnique)
                (validateAdditionalKeys path target)) /\
  ((forall k, isAdditionalKey target k -> ~ isPrimaryKey target k) ->
   (forall j p, jksKey target = Some j -> pkcs12Key target = Some p ->
                j <> p) ->
   validateAdditionalKeys path target = []).
Proof.
  unfold validateAdditionalKeys, targetFault, Child. simpl map.
  split; [|split].
  - intros k Ha Hp. apply in_or_app. left.
    replace (existsb _ (additionalKeys target)) with true; [now left|].
    symmetry. apply existsb_exists. exists k. split.
    + now apply In_additionalKeys.
    + now apply memKey_In, In_primaryKeys.
  - intros k Hj Hp. apply in_or_app. right.
    rewrite Hj, Hp, String.eqb_refl. now left.
  - intros Hdiffer Hunique.
    replace (existsb _ (additionalKeys target)) with false.
    + simpl. destruct (jksKey target) as [j|], (pkcs12Key target) as [p|];
        try reflexivity.
      destruct (String.eqb j p) eqn:Heq; [|reflexivity].
      apply String.eqb_eq in Heq. now destruct (Hunique j p eq_refl eq_refl).
    + symmetry. apply not_true_is_false. intros H.
      apply existsb_exists in H. destruct H as (k & Hk & Hmem).
      apply (Hdiffer k).
      * now apply In_additionalKeys.
      * now apply In_primaryKeys, memKey_In.
Qed.

Lemma validateAdditionalKeys_distinct_witness :
  In (targetFault (NewPath "spec") additionalKeysDiffer)
     (validateAdditionalKeys (NewPath "spec")
                             (targetOfKeySpec (keySpec "c" "s" "c" ""))) /\
  In (targetFault (NewPath "spec") additionalKeysUnique)
     (validateAdditionalKeys (NewPath "spec")
                             (targetOfKeySpec (keySpec "c" "s" "j" "j"))) /\
  validateAdditionalKeys (NewPath "spec")
                         (targetOfKeySpec (keySpec "c" "s" "j" "p")) = [].
Proof.
  split; [|split].
  - apply (proj1 (validateAdditionalKeys_distinct (NewPath "spec")
                    (targetOfKeySpec (keySpec "c" "s" "c" ""))) "c").
    + left. reflexivity.
    + left. exists (keyOnly "c"). split; reflexivity.
  - apply (proj1 (proj2 (validateAdditionalKeys_distinct (NewPath "spec")
                    (targetOfKeySpec (keySpec "c" "s" "j" "j")))) "j");
      reflexivity.
  - apply (proj2 (proj2 (validateAdditionalKeys_distinct (NewPath "spec")
                    (targetOfKeySpec (keySpec "c" "s" "j" "p"))))).
    + intros k [Hk | Hk]; injection Hk as <-;
        intros [(x & Hx & Hkey) | (x & Hx & Hkey)];
        injection Hx as <-; discriminate Hkey.
    + intros j p Hj Hp. injection Hj as <-. injection Hp as <-. discriminate.
Defined.

(** The rules agree with every entry of the two test tables on additional
    format keys. *)
Example additionalKeysTable_agrees :
  forallb (fun entry =>
             agrees additionalKeysDiffer
                    (targetRules (targetOfKeySpec (fst entry))) (snd entry))
          additionalKeysTable = true.
Proof. reflexivity. Qed.

Example uniqueKeysTable_agrees :
  forallb (fun entry =>
             agrees additionalKeysUnique
                    (targetRules (defaultTargetWith (fst entry))) (snd entry))
          uniqueKeysTable = true.
Proof. reflexivity. Qed.

(** C5.  A target with neither configMap nor secret gets the fault "must
    define at least one target configMap/secret" at the target path from
    the rule on the presence of a target; a target with one of them gets
    none. *)
Theorem validateTargetPresence_at_least_one
        (path : Path) (target : BundleTarget) :
  (TargetConfigMap target = None -> TargetSecret target = None ->
   validateTargetPresence path target = [targetFault path atLeastOneTarget]) /\
  (TargetConfigMap target <> None \/ TargetSecret target <> None ->
   validateTargetPresence path target = []).
Proof.
  unfold validateTargetPresence, targetFault, Child. simpl map. split.
  - intros -> ->. reflexivity.
  - destruct (TargetConfigMap target), (TargetSecret target);
      intros [H | H]; try reflexivity; now destruct H.
Qed.

Lemma validateTargetPresence_at_least_one_witness :
  validateTargetPresence (NewPath "spec") (Target (Spec noTargets)) =
  [targetFault (NewPath "spec") atLeastOneTarget] /\
  validateTargetPresence (NewPath "spec") (Target (Spec onlySecret)) = [].
Proof.
  split.
  - apply (proj1 (validateTargetPresence_at_least_one
                    (NewPath "spec") (Target (Spec noTargets))));
      reflexivity.
  - apply (proj2 (validateTargetPresence_at_least_one
                    (NewPath "spec") (Target (Spec onlySecret)))).
    right. discriminate.
Defined.

(** The rule agrees with every entry of the test table. *)
Example targetPresenceTable_agrees :
  forallb (fun entry =>
             agrees atLeastOneTarget (targetRules (fst entry)) (snd entry))
          targetPresenceTable = true.
Proof. reflexivity. Qed.

(** * Further properties of the webhook *)

Section WebhookCoverage.

Variable ValidateLabelSelector : option LabelSelector -> Path -> ErrorList.
Variable ErrorString : FieldError -> string.

Local Abbreviation validate := (validate ValidateLabelSelector ErrorString).
Local Abbreviation ValidateCreate :=
  (ValidateCreate ValidateLabelSelector ErrorString).
Local Abbreviation ValidateUpdate :=
  (ValidateUpdate ValidateLabelSelector ErrorString).
Local Abbreviation validateErrors := (validateErrors ValidateLabelSelector).
Local Abbreviation ToAggregate := (ToAggregate ErrorString).
Local Abbreviation faultOrigin := (faultOrigin ValidateLabelSelector).

(** ** Where the faults come from *)

Lemma in_optional {A B : Type} (o : option A) (f : A -> list B) (b : B) :
  In b (match o with Some x => f x | None => [] end) <->
  exists x, o = Some x /\ In b (f x).
Proof.
  destruct o as [a|]; split.
  - intros H. exists a. split; [reflexivity | assumption].
  - intros (x & Hx & H). injection Hx as <-. assumption.
  - intros [].
  - intros (x & Hx & _). discriminate Hx.
Qed.

Lemma in_selectorsFound (i : nat) (source : BundleSource) (e : FieldError) :
  In e (selectorsFound ValidateLabelSelector (NewPath "spec") i source) <->
  (exists cm, SourceConfigMap source = Some cm /\
              In e (ValidateLabelSelector (SrcSelector cm)
                      (sourceSelectorPath i "configMap"))) \/
  (exists secret, SourceSecret source = Some secret /\
                  In e (ValidateLabelSelector (SrcSelector secret)
                          (sourceSelectorPath i "secret"))).
Proof.
  unfold selectorsFound. rewrite in_app_iff, !in_optional. reflexivity.
Qed.

Lemma in_configMapFound (name : string) (target : KeySelector) (i : nat)
      (source : BundleSource) (e : FieldError) :
  In e (configMapFound name target i source) <->
  exists cm, SourceConfigMap source = Some cm /\
             SrcName cm = name /\ SrcKey cm = Key target /\
             e = sameSourceFault i "configMap" cm.
Proof.
  unfold configMapFound.
  destruct (SourceConfigMap source) as [cm|]; split.
  - destruct (sameAsTarget name target cm) eqn:Hsame; [|intros []].
    apply sameAsTarget_true in Hsame. destruct Hsame as [Hn Hk].
    intros [<- | []]. exists cm. auto.
  - intros (x & Hx & Hn & Hk & ->). injection Hx as <-.
    replace (sameAsTarget name target cm) with true
      by (symmetry; now apply sameAsTarget_true).
    now left.
  - intros [].
  - intros (x & Hx & _). discriminate Hx.
Qed.

Lemma in_secretFound (name : string) (target : KeySelector) (i : nat)
      (source : BundleSource) (e : FieldError) :
  In e (secretFound name target i source) <->
  exists secret, SourceSecret source = Some secret /\
                 SrcName secret = name /\ SrcKey secret = Key target /\
                 e = sameSourceFault i "secret" secret.
Proof.
  unfold secretFound.
  destruct (SourceSecret source) as [s|]; split.
  - destruct (sameAsTarget name target s) eqn:Hsame; [|intros []].
    apply sameAsTarget_true in Hsame. destruct Hsame as [Hn Hk].
    intros [<- | []]. exists s. auto.
  - intros (x & Hx & Hn & Hk & ->). injection Hx as <-.
    replace (sameAsTarget name target s) with true
      by (symmetry; now apply sameAsTarget_true).
    now left.
  - intros [].
  - intros (x & Hx & _). discriminate Hx.
Qed.

(** The faults [validate] has collected are those with an origin. *)
Lemma in_validateErrors (bundle : Bundle) (e : FieldError) :
  In e (validateErrors bundle) <-> faultOrigin bundle e.
Proof.
  rewrite validateErrors_eq, !in_app_iff, !in_optional.
  fold namespaceSelectorPath. unfold_faultOrigin.
  split.
  - intros [H | [H | [H | H]]].
    + apply in_found_from in H. destruct H as (k & x & Hk & H).
      apply in_selectorsFound in H.
      destruct H as [(cm & Hcm & H) | (s & Hs & H)].
      * left. exists k, x, cm. auto.
      * right. left. exists k, x, s. auto.
    + destruct H as (t & Ht & H).
      apply in_found_from in H. destruct H as (k & x & Hk & H).
      apply in_configMapFound in H. destruct H as (cm & Hcm & Hn & Hkey & He).
      right. right. left. exists k, x, cm, t. auto 7.
    + destruct H as (t & Ht & H).
      apply in_found_from in H. destruct H as (k & x & Hk & H).
      apply in_secretFound in H. destruct H as (s & Hs & Hn & Hkey & He).
      right. right. right. left. exists k, x, s, t. auto 7.
    + right. right. right. right. exact H.
  - intros [H | [H | [H | [H | H]]]].
    + destruct H as (k & x & cm & Hk & Hcm & H).
      left. apply in_found_from. exists k, x. split; [assumption|].
      apply in_selectorsFound. left. exists cm. auto.
    + destruct H as (k & x & sec & Hk & Hs & H).
      left. apply in_found_from. exists k, x. split; [assumption|].
      apply in_selectorsFound. right. exists sec. auto.
    + destruct H as (k & x & cm & t & Hk & Hcm & Ht & Hn & Hkey & He).
      right. left. exists t. split; [assumption|].
      apply in_found_from. exists k, x. split; [assumption|].
      apply in_configMapFound. exists cm. auto.
    + destruct H as (k & x & sec & t & Hk & Hs & Ht & Hn & Hkey & He).
      right. right. left. exists t. split; [assumption|].
      apply in_found_from. exists k, x. split; [assumption|].
      apply in_secretFound. exists sec. auto.
    + right. right. right. exact H.
Qed.

Lemma found_from_view {A B V : Type} (view : A -> V)
      (g g' : nat -> A -> list B) :
  (forall i x y, view x = view y -> g i x = g' i y) ->
  forall xs ys i,
    map view xs = map view ys -> found_from g i xs = found_from g' i ys.
Proof.
  intros Hg xs.
  induction xs as [|x rest IH]; intros [|y ys] i Hmap; simpl in *;
    try discriminate Hmap; [reflexivity|].
  injection Hmap as Hxy Hrest.
  rewrite (Hg i x y Hxy), (IH ys (S i) Hrest). reflexivity.
Qed.

Lemma selectorsFound_view (path : Path) (i : nat) (x y : BundleSource) :
  sourceView x = sourceView y ->
  selectorsFound ValidateLabelSelector path i x =
  selectorsFound ValidateLabelSelector path i y.
Proof.
  unfold sourceView, selectorsFound, selectorView. intros H.
  injection H as Hcm Hs.
  destruct (SourceConfigMap x), (SourceConfigMap y); try discriminate Hcm;
    destruct (SourceSecret x), (SourceSecret y); try discriminate Hs;
    simpl in *; try injection Hcm as _ Hcm _; try injection Hs as _ Hs _;
    rewrite ?Hcm, ?Hs; reflexivity.
Qed.

Lemma configMapFound_view (name : string) (t t' : KeySelector) (i : nat)
      (x y : BundleSource) :
  Key t = Key t' -> sourceView x = sourceView y ->
  configMapFound name t i x = configMapFound name t' i y.
Proof.
  unfold sourceView, configMapFound, sameAsTarget, sameSourceFault,
    selectorView.
  intros Hkey H. injection H as Hcm _.
  destruct (SourceConfigMap x), (SourceConfigMap y); try discriminate Hcm;
    [|reflexivity].
  simpl in Hcm. injection Hcm as Hn _ Hk. now rewrite Hn, Hk, Hkey.
Qed.

Lemma secretFound_view (name : string) (t t' : KeySelector) (i : nat)
      (x y : BundleSource) :
  Key t = Key t' -> sourceView x = sourceView y ->
  secretFound name t i x = secretFound name t' i y.
Proof.
  unfold sourceView, secretFound, sameAsTarget, sameSourceFault, selectorView.
  intros Hkey H. injection H as _ Hs.
  destruct (SourceSecret x), (SourceSecret y); try discriminate Hs;
    [|reflexivity].
  simpl in Hs. injection Hs as Hn _ Hk. now rewrite Hn, Hk, Hkey.
Qed.

(** ** What [validate] returns *)

(** The faults are collected in this order: the selector faults of the
    sources in source order, for each source those of its configMap before
    those of its secret; the sources that read the target configMap, in
    source order; the sources that read the target secret, in source
    order; the faults of the namespace selector. *)
Theorem validate_collects_in_order (log : Log) (bundle : Bundle) :
  validate log (ObjBundle (Some bundle)) =
  (log ++ [validationEntry bundle],
   Returned []
     (ToAggregate
        (found_from (selectorsFound ValidateLabelSelector (NewPath "spec")) 0
                    (Sources (Spec bundle))
         ++ match TargetConfigMap (Target (Spec bundle)) with
            | Some target =>
                found_from (configMapFound (Name bundle) target) 0
                           (Sources (Spec bundle))
            | None => []
            end
         ++ match TargetSecret (Target (Spec bundle)) with
            | Some target =>
                found_from (secretFound (Name bundle) target) 0
                           (Sources (Spec bundle))
            | None => []
            end
         ++ ValidateLabelSelector (NamespaceSelector (Target (Spec bundle)))
              namespaceSelectorPath))).
Proof.
  rewrite validate_bundle, validateErrors_eq. reflexivity.
Qed.

(** Every fault [validate] returns has an origin: it was reported by the
    selector validator for a selector of the bundle, under the path of that
    selector, or it is the fault of a source that names the bundle and
    reads the key the target of its kind writes. *)
Theorem validate_reports_only_origins
        (log : Log) (bundle : Bundle) (e : FieldError) :
  In e (faultsOf (snd (validate log (ObjBundle (Some bundle))))) ->
  faultOrigin bundle e.
Proof.
  intros H. apply in_validateErrors.
  exact (faultsOf_validate_incl _ _ _ _ _ H).
Qed.

(** The faults of the selector validator are passed on: what it reports
    for the selector of the configMap or of the secret of source [i], at
    spec.sources[i].configMap.selector or spec.sources[i].secret.selector,
    and for the namespace selector, at spec.target.namespaceSelector, has
    its message in the aggregate [validate] returns. *)
Theorem validate_passes_selector_faults
        (log : Log) (bundle : Bundle) (e : FieldError) :
  let out := snd (validate log (ObjBundle (Some bundle))) in
  (forall i source cm,
      nth_error (Sources (Spec bundle)) i = Some source ->
      SourceConfigMap source = Some cm ->
      In e (ValidateLabelSelector (SrcSelector cm)
                                  (sourceSelectorPath i "configMap")) ->
      In (ErrorString e) (map ErrorString (faultsOf out)))
  /\
  (forall i source secret,
      nth_error (Sources (Spec bundle)) i = Some source ->
      SourceSecret source = Some secret ->
      In e (ValidateLabelSelector (SrcSelector secret)
                                  (sourceSelectorPath i "secret")) ->
      In (ErrorString e) (map ErrorString (faultsOf out)))
  /\
  (In e (ValidateLabelSelector (NamespaceSelector (Target (Spec bundle)))
                               namespaceSelectorPath) ->
   In (ErrorString e) (map ErrorString (faultsOf out))).
Proof.
  intros out. subst out. repeat split.
  - intros i source cm Hi Hcm He.
    apply faultsOf_validate_message, in_validateErrors.
    left. exists i, source, cm. auto.
  - intros i source s Hi Hs He.
    apply faultsOf_validate_message, in_validateErrors.
    right. left. exists i, source, s. auto.
  - intros He.
    apply faultsOf_validate_message, in_validateErrors.
    right. right. right. right. exact He.
Qed.

(** [validate] admits a bundle, with a nil error, exactly when no fault
    has an origin: the selector validator accepts every selector of the
    bundle and no source reads what a target writes. *)
Theorem validate_admits_iff (log : Log) (bundle : Bundle) :
  snd (validate log (ObjBundle (Some bundle))) = Returned [] ErrNil <->
  (forall e, ~ faultOrigin bundle e).
Proof.
  rewrite validate_bundle. simpl snd. split.
  - intros H e He. apply in_validateErrors in He.
    destruct (validateErrors bundle) as [|e0 el]; [destruct He|].
    discriminate H.
  - intros H. destruct (validateErrors bundle) as [|e0 el] eqn:Hel.
    + reflexivity.
    + exfalso. apply (H e0), in_validateErrors. rewrite Hel. now left.
Qed.

(** [validate] reads a bundle through [bundleView] only: two bundles that
    agree on it get the same result, whatever their inLine and
    useDefaultCAs sources, includeAllKeys flags, formats, passwords,
    additional formats and generated names are. *)
Theorem validate_reads_view_only (log : Log) (b1 b2 : Bundle) :
  bundleView b1 = bundleView b2 ->
  validate log (ObjBundle (Some b1)) = validate log (ObjBundle (Some b2)).
Proof.
  unfold bundleView, targetView. intros H.
  injection H as Hname Hsrc Hcm Hs Hns.
  assert (Hel : validateErrors b1 = validateErrors b2).
  { rewrite !validateErrors_eq, Hname, Hns. f_equal; [|f_equal; [|f_equal]].
    - apply found_from_view with (view := sourceView); [|exact Hsrc].
      intros i x y Hxy. now apply selectorsFound_view.
    - destruct (TargetConfigMap (Target (Spec b1))) as [t1|],
               (TargetConfigMap (Target (Spec b2))) as [t2|];
        try discriminate Hcm; [|reflexivity].
      injection Hcm as Hcm.
      apply found_from_view with (view := sourceView); [|exact Hsrc].
      intros i x y Hxy. now apply configMapFound_view.
    - destruct (TargetSecret (Target (Spec b1))) as [s1|],
               (TargetSecret (Target (Spec b2))) as [s2|];
        try discriminate Hs; [|reflexivity].
      injection Hs as Hs.
      apply found_from_view with (view := sourceView); [|exact Hsrc].
      intros i x y Hxy. now apply secretFound_view. }
  rewrite !validate_bundle, Hel. unfold validationEntry. now rewrite Hname.
Qed.

(** No call returns a warning. *)
Theorem webhook_never_warns (log : Log) (oldObj obj : Object) :
  warningsOf (snd (validate log obj)) = [] /\
  warningsOf (snd (ValidateCreate log obj)) = [] /\
  warningsOf (snd (ValidateUpdate log oldObj obj)) = [] /\
  warningsOf (snd (ValidateDelete log obj)) = [].
Proof.
  unfold_ValidateCreate. unfold_ValidateUpdate.
  destruct obj as [[new|]|t], oldObj as [[old|]|t']; simpl;
    repeat split;
    destruct (TargetConfigMap (Target (Spec old)));
    destruct (TargetSecret (Target (Spec old))); simpl;
    try reflexivity;
    destruct (TargetConfigMap (Target (Spec new)));
    destruct (TargetSecret (Target (Spec new))); reflexivity.
Qed.

(** ** What ValidateUpdate returns *)

(** ValidateUpdate panics exactly when both objects hold a Bundle pointer
    and one of the two pointers is nil; [validate] panics exactly on a nil
    Bundle pointer.  On every other input they return. *)
Theorem ValidateUpdate_panics_iff (log : Log) (oldObj newObj : Object) :
  ((exists reason,
       snd (ValidateUpdate log oldObj newObj) = Panicked reason) <->
   (exists old new,
       oldObj = ObjBundle old /\ newObj = ObjBundle new /\
       (old = None \/ new = None)))
  /\
  ((exists reason, snd (validate log newObj) = Panicked reason) <->
   newObj = ObjBundle None).
Proof.
  split.
  - unfold_ValidateUpdate.
    destruct oldObj as [[old|]|t], newObj as [[new|]|t']; simpl.
    + destruct (TargetConfigMap (Target (Spec old))),
               (TargetConfigMap (Target (Spec new))),
               (TargetSecret (Target (Spec old))),
               (TargetSecret (Target (Spec new))); simpl;
        (split;
         [ intros (r & Hr); discriminate Hr
         | intros (o & n & Ho & Hn & [H | H]); subst;
           [injection Ho as Ho | injection Hn as Hn]; discriminate ]).
    + destruct (TargetConfigMap (Target (Spec old))),
               (TargetSecret (Target (Spec old))); simpl;
        (split; [ intros _; exists (Some old), None; auto
                | intros _; eexists; reflexivity ]).
    + split; [intros (r & Hr); discriminate Hr|].
      intros (o & n & _ & Hn & _). discriminate Hn.
    + split; [intros _; exists None, (Some new); auto|].
      intros _. eexists. reflexivity.
    + split; [intros _; exists None, None; auto|].
      intros _. eexists. reflexivity.
    + split; [intros (r & Hr); discriminate Hr|].
      intros (o & n & _ & Hn & _). discriminate Hn.
    + split; [intros (r & Hr); discriminate Hr|].
      intros (o & n & Ho & _). discriminate Ho.
    + split; [intros (r & Hr); discriminate Hr|].
      intros (o & n & Ho & _). discriminate Ho.
    + split; [intros (r & Hr); discriminate Hr|].
      intros (o & n & Ho & _). discriminate Ho.
  - destruct newObj as [[new|]|t]; simpl; split;
      try (intros (r & Hr); discriminate Hr);
      try (intros H; discriminate H);
      try reflexivity.
    intros _. eexists. reflexivity.
Qed.

(** When one of the two objects is not a Bundle, ValidateUpdate returns
    the error of the failed type assertion, with the same message for
    every actual type, and does nothing else: the previous object is
    asserted first, no pointer is read and nothing is logged.  The error
    of [validate] names the actual type instead. *)
Theorem ValidateUpdate_not_a_bundle
        (log : Log) (dynType : string) (obj : Object) (old : option Bundle) :
  ValidateUpdate log (ObjOther dynType) obj =
  (log, Returned [] (ErrFmt expectedBundlePointer)) /\
  ValidateUpdate log (ObjBundle old) (ObjOther dynType) =
  (log, Returned [] (ErrFmt expectedBundlePointer)) /\
  validate log (ObjOther dynType) =
  (log, Returned [] (ErrFmt ("expected a Bundle, but got a " ++ dynType))).
Proof. repeat split; reflexivity. Qed.

(** An update that ValidateUpdate admits is one ValidateCreate admits for
    the proposed object: when the error is nil, ValidateUpdate has returned
    what ValidateCreate returns, log included. *)
Theorem ValidateUpdate_admits_only_valid (log : Log) (oldObj newObj : Object) :
  snd (ValidateUpdate log oldObj newObj) = Returned [] ErrNil ->
  ValidateUpdate log oldObj newObj = ValidateCreate log newObj.
Proof.
  unfold_ValidateCreate. unfold_ValidateUpdate.
  destruct oldObj as [[old|]|t], newObj as [[new|]|t']; simpl;
    try (intros H; discriminate H).
  - destruct (TargetConfigMap (Target (Spec old))),
             (TargetConfigMap (Target (Spec new))),
             (TargetSecret (Target (Spec old))),
             (TargetSecret (Target (Spec new))); simpl;
      intros H; try discriminate H; reflexivity.
  - destruct (TargetConfigMap (Target (Spec old))),
             (TargetSecret (Target (Spec old))); simpl;
      intros H; discriminate H.
Qed.

End WebhookCoverage.

(** ** The paths of the self-reference faults *)

(** The path of a self-reference fault tells the source and the kind: the
    faults of two different source indices, or of the configMap and the
    secret of one source, lie at different paths. *)
Theorem sameSourceFault_identifies_source
        (i j : nat) (kind kind' : string) (sel sel' : SourceObjectKeySelector) :
  i <> j \/ kind <> kind' ->
  Field (sameSourceFault i kind sel) <> Field (sameSourceFault j kind' sel').
Proof.
  intros Hdiff Heq.
  cbn [Field sameSourceFault Forbidden] in Heq.
  injection Heq as Hidx Hkind _ _.
  apply append_cancel_r, sprint_d_inj in Hidx.
  destruct Hdiff as [H | H]; now apply H.
Qed.

Lemma sameSourceFault_identifies_source_witness :
  Field (sameSourceFault 9 "configMap" (selfSelector "ca.crt")) <>
  Field (sameSourceFault 10 "configMap" (selfSelector "ca.crt")).
Proof.
  apply (@sameSourceFault_identifies_source 9 10 "configMap" "configMap"
           (selfSelector "ca.crt") (selfSelector "ca.crt")).
  left. discriminate.
Defined.

(** ** Examples of the further properties *)

(** The fault of the operator in the selector of the first source. *)
Lemma validate_reports_only_origins_witness :
  faultOrigin checkOperators badSourceBundle
    (Invalid (sourceSelectorPath 0 "configMap"
                ++ [PName "matchExpressions"; PIndex 0; PName "operator"])
             (BadString "Equals") invalidOperator).
Proof.
  apply (@validate_reports_only_origins checkOperators fieldErrorString []
           badSourceBundle).
  simpl. left. reflexivity.
Defined.

Lemma validate_passes_selector_faults_witness :
  In (fieldErrorString
        (Invalid (sourceSelectorPath 0 "configMap"
                    ++ [PName "matchExpressions"; PIndex 0; PName "operator"])
                 (BadString "Equals") invalidOperator))
     (map fieldErrorString
          (faultsOf (snd (validate checkOperators fieldErrorString []
                                   (ObjBundle (Some badSourceBundle)))))).
Proof.
  refine (proj1 (@validate_passes_selector_faults
                   checkOperators fieldErrorString [] badSourceBundle _)
                0 _ _ eq_refl eq_refl _).
  simpl. left. reflexivity.
Defined.

(** Two bundles with the same view: one of them has a source with three
    members and a source with none. *)
Lemma validate_reads_view_only_witness :
  validate checkOperators fieldErrorString []
           (ObjBundle (Some looseBundle)) =
  validate checkOperators fieldErrorString []
           (ObjBundle (Some tidyBundle)).
Proof.
  apply (@validate_reads_view_only checkOperators fieldErrorString []
           looseBundle tidyBundle).
  reflexivity.
Defined.

(** An update that adds the secret target and keeps the configMap. *)
Lemma ValidateUpdate_no_removal_witness :
  ValidateUpdate checkOperators fieldErrorString []
                 (ObjBundle (Some onlyConfigMap))
                 (ObjBundle (Some bothTargets)) =
  validate checkOperators fieldErrorString []
           (ObjBundle (Some bothTargets)).
Proof.
  apply (@ValidateUpdate_no_removal checkOperators fieldErrorString []
           onlyConfigMap bothTargets).
  - intros _. discriminate.
  - intros _. discriminate.
Defined.

Lemma ValidateUpdate_admits_only_valid_witness :
  ValidateUpdate checkOperators fieldErrorString []
                 (ObjBundle (Some noTargets))
                 (ObjBundle (Some onlySecret)) =
  ValidateCreate checkOperators fieldErrorString []
                 (ObjBundle (Some onlySecret)).
Proof.
  apply (@ValidateUpdate_admits_only_valid checkOperators fieldErrorString []
           (ObjBundle (Some noTargets)) (ObjBundle (Some onlySecret))).
  reflexivity.
Defined.

(** * Two runs of the webhook *)

Section Runs.

Variable ErrorString : FieldError -> string.

Local Abbreviation uniqueMsgs := (uniqueMsgs ErrorString).

(** ** The aggregate of a reordered list *)

Lemma uniqueMsgs_fresh (list_ : ErrorList) :
  forall seen msg,
    In msg (map ErrorString (uniqueMsgs seen list_)) -> ~ In msg seen.
Proof.
  induction list_ as [|err rest IH]; intros seen msg; simpl; [tauto|].
  destruct (hasMsg seen (ErrorString err)) eqn:Hseen.
  - apply IH.
  - simpl. intros [<- | H] Hin.
    + apply hasMsg_In in Hin. congruence.
    + apply (IH _ _ H). now right.
Qed.

Lemma uniqueMsgs_NoDup (list_ : ErrorList) :
  forall seen, NoDup (map ErrorString (uniqueMsgs seen list_)).
Proof.
  induction list_ as [|err rest IH]; intros seen; simpl; [constructor|].
  destruct (hasMsg seen (ErrorString err)); [apply IH|].
  simpl. constructor; [|apply IH].
  intros H. apply uniqueMsgs_fresh in H. apply H. now left.
Qed.

Lemma uniqueMsgs_messages (list_ : ErrorList) (msg : string) :
  In msg (map ErrorString (uniqueMsgs [] list_)) <->
  In msg (map ErrorString list_).
Proof.
  rewrite !in_map_iff. split.
  - intros (e & <- & He). exists e. split; [reflexivity|].
    eapply uniqueMsgs_incl, He.
  - intros (e & <- & He). apply in_map_iff.
    destruct (uniqueMsgs_keeps_messages ErrorString list_ [] e He) as [[] | H].
    exact H.
Qed.

Lemma uniqueMsgs_permutation_messages (el1 el2 : ErrorList) :
  Permutation el1 el2 ->
  Permutation (map ErrorString (uniqueMsgs [] el1))
              (map ErrorString (uniqueMsgs [] el2)).
Proof.
  intros Hperm.
  apply NoDup_Permutation; try apply uniqueMsgs_NoDup.
  intros msg. rewrite !uniqueMsgs_messages.
  split; apply Permutation_in; apply Permutation_map;
    [assumption | now apply Permutation_sym].
Qed.

Lemma uniqueMsgs_permutation_faults (el1 el2 : ErrorList) :
  (forall a b, ErrorString a = ErrorString b -> a = b) ->
  Permutation el1 el2 ->
  Permutation (uniqueMsgs [] el1) (uniqueMsgs [] el2).
Proof.
  intros Hinj Hperm.
  assert (Hsub : forall l1 l2 e,
             Permutation l1 l2 -> In e (uniqueMsgs [] l1) ->
             In e (uniqueMsgs [] l2)).
  { intros l1 l2 e Hp He.
    assert (Hmsg : In (ErrorString e) (map ErrorString (uniqueMsgs [] l2))).
    { apply uniqueMsgs_messages.
      apply (Permutation_in _ (Permutation_map ErrorString Hp)).
      apply uniqueMsgs_messages, in_map, He. }
    apply in_map_iff in Hmsg. destruct Hmsg as (y & Hy & Hin).
    apply Hinj in Hy. now subst. }
  apply NoDup_Permutation.
  - eapply NoDup_map_inv, uniqueMsgs_NoDup.
  - eapply NoDup_map_inv, uniqueMsgs_NoDup.
  - intros e. split; apply Hsub; [assumption | now apply Permutation_sym].
Qed.

(** ** The faults of two runs *)

Lemma found_from_permutation {A B : Type} (g g' : nat -> A -> list B) :
  (forall i x, Permutation (g i x) (g' i x)) ->
  forall xs i, Permutation (found_from g i xs) (found_from g' i xs).
Proof.
  intros Hg xs. induction xs as [|x rest IH]; intros i; simpl.
  - constructor.
  - apply Permutation_app; [apply Hg | apply IH].
Qed.

Lemma validateErrors_permutation
      (V1 V2 : option LabelSelector -> Path -> ErrorList) (bundle : Bundle) :
  (forall sel p, Permutation (V1 sel p) (V2 sel p)) ->
  Permutation (validateErrors V1 bundle) (validateErrors V2 bundle).
Proof.
  intros HV. rewrite !validateErrors_eq.
  repeat apply Permutation_app; try apply Permutation_refl; [|apply HV].
  apply found_from_permutation. intros i x. unfold selectorsFound.
  apply Permutation_app.
  - destruct (SourceConfigMap x); [apply HV | constructor].
  - destruct (SourceSecret x); [apply HV | constructor].
Qed.

Lemma validateErrors_ext
      (V1 V2 : option LabelSelector -> Path -> ErrorList) (bundle : Bundle) :
  (forall sel p, V1 sel p = V2 sel p) ->
  validateErrors V1 bundle = validateErrors V2 bundle.
Proof.
  intros HV. rewrite !validateErrors_eq, HV. f_equal.
  apply found_from_view with (view := fun x : BundleSource => x);
    [|reflexivity].
  intros i x y <-. unfold selectorsFound.
  destruct (SourceConfigMap x), (SourceSecret x); now rewrite ?HV.
Qed.

(** C6, as amended.  [validate] carries no state from one call to
    another: its result does not depend on the log it starts from, and two
    runs on the same object in which the selector validator reports the
    same faults in the same order return the same result.  When the
    validator reports the same faults for every selector but in another
    order, the two runs return the same outcome up to the order of the
    faults: both a nil error, or two aggregates whose messages are a
    permutation of each other, and whose faults are one when no two faults
    share a message. *)
Theorem validate_deterministic_up_to_order
        (V1 V2 : option LabelSelector -> Path -> ErrorList)
        (log1 log2 : Log) (obj : Object) :
  (forall sel p, Permutation (V1 sel p) (V2 sel p)) ->
  let out1 := snd (validate V1 ErrorString log1 obj) in
  let out2 := snd (validate V2 ErrorString log2 obj) in
  sameUpToOrder ErrorString out1 out2 /\
  ((forall a b, ErrorString a = ErrorString b -> a = b) ->
   Permutation (faultsOf out1) (faultsOf out2)) /\
  ((forall sel p, V1 sel p = V2 sel p) -> out1 = out2).
Proof.
  intros HV out1 out2. subst out1 out2.
  destruct obj as [[bundle|]|dynType];
    [|repeat split; intros; reflexivity || constructor ..].
  rewrite !validate_bundle. simpl snd.
  pose proof (validateErrors_permutation V1 V2 bundle HV) as Hperm.
  split; [|split].
  - destruct (validateErrors V1 bundle) as [|a1 l1] eqn:H1,
             (validateErrors V2 bundle) as [|a2 l2] eqn:H2.
    + reflexivity.
    + apply Permutation_nil in Hperm. discriminate Hperm.
    + apply Permutation_sym, Permutation_nil in Hperm. discriminate Hperm.
    + unfold ToAggregate, sameUpToOrder. split; [reflexivity|].
      now apply uniqueMsgs_permutation_messages.
  - intros Hinj.
    destruct (validateErrors V1 bundle) as [|a1 l1] eqn:H1,
             (validateErrors V2 bundle) as [|a2 l2] eqn:H2.
    + constructor.
    + apply Permutation_nil in Hperm. discriminate Hperm.
    + apply Permutation_sym, Permutation_nil in Hperm. discriminate Hperm.
    + unfold ToAggregate, faultsOf.
      now apply uniqueMsgs_permutation_faults.
  - intros Heq. now rewrite (validateErrors_ext V1 V2 bundle Heq).
Qed.

End Runs.

(** ** Two runs of the library on one bundle *)

Lemma validateLabels_permutation (sel : option LabelSelector) (p : Path) :
  Permutation (validateLabels asStored sel p) (validateLabels reversed sel p).
Proof.
  destruct sel as [ps|]; simpl; [|constructor].
  apply Permutation_app; [|apply Permutation_refl].
  unfold asStored, reversed.
  apply Permutation_flat_map, Permutation_rev.
Qed.

(** Two runs on [labelledBundle], from different logs, in which the
    library ranges over the labels in opposite orders. *)
Lemma validate_deterministic_up_to_order_witness :
  sameUpToOrder fieldErrorText
    (snd (validate (validateLabels asStored) fieldErrorText []
                   (ObjBundle (Some labelledBundle))))
    (snd (validate (validateLabels reversed) fieldErrorText
                   [validationEntry labelledBundle]
                   (ObjBundle (Some labelledBundle)))).
Proof.
  apply (@validate_deterministic_up_to_order fieldErrorText
           (validateLabels asStored) (validateLabels reversed)
           [] [validationEntry labelledBundle]
           (ObjBundle (Some labelledBundle))).
  apply validateLabels_permutation.
Defined.

(** Validating the same bundle twice does not always give identical fault
    lists: in two runs in which the library ranges over the two labels of
    the namespace selector in opposite orders, each reporting the same two
    faults, [validate] returns them in opposite orders. *)
Lemma validate_fault_order_differs :
  (forall sel p,
      Permutation (validateLabels asStored sel p)
                  (validateLabels reversed sel p)) /\
  faultsOf (snd (validate (validateLabels asStored) fieldErrorText []
                          (ObjBundle (Some labelledBundle)))) <>
  faultsOf (snd (validate (validateLabels reversed) fieldErrorText []
                          (ObjBundle (Some labelledBundle)))) /\
  snd (validate (validateLabels asStored) fieldErrorText []
                (ObjBundle (Some labelledBundle))) <>
  snd (validate (validateLabels reversed) fieldErrorText []
                (ObjBundle (Some labelledBundle))).
Proof.
  split; [exact validateLabels_permutation|].
  split; vm_compute; intros H; discriminate H.
Qed.
